(** * MOM: meeting transcription and minutes-of-meeting generator

    A shallow embedding of the algorithmic parts of the repository:
    - [create_transcript] (src/utils.py and src/app.py): speaker-turn
      segmentation of a diarized word list;
    - [TranscriptCollector] and [DeepgramLiveTranscriber.on_message]
      (src/deepgram_live.py, live_speech.py): the live transcript aggregator;
    - [MoMGenerator.translate_text] and [MoMGenerator.generate_mom]
      (src/mom_generator.py): the English short cut and the retry loop.

    Python strings are modelled as [string], with the white space and the
    letter case of the ASCII range; Python dicts with string keys as
    [gmap string value]; exceptions as an explicit [result] monad; calls to
    external services and to the registered callback as oracles whose
    invocations are recorded in a trace. *)

From Stdlib Require Import String Ascii List ZArith Lia Bool QArith.
From stdpp Require Import base strings gmap pretty list.

Local Open Scope string_scope.
Local Open Scope list_scope.

(** ** Python string primitives *)

Module Py.

(** The line feed character, written ['\n'] in the source. *)
Definition nl : string := String "010"%char EmptyString.

(** [c.isspace()] for a single character of the ASCII range: TAB, LF, VT,
    FF, CR, the four separators FS, GS, RS, US, and the blank. *)
Definition is_space (c : ascii) : bool :=
  let n := nat_of_ascii c in
  ((9 <=? n)%nat && (n <=? 13)%nat) || ((28 <=? n)%nat && (n <=? 32)%nat).

(** [s.lstrip()] *)
Fixpoint lstrip (s : string) : string :=
  match s with
  | EmptyString => EmptyString
  | String c s' => if is_space c then lstrip s' else s
  end.

(** [s.rstrip()] *)
Fixpoint rstrip (s : string) : string :=
  match s with
  | EmptyString => EmptyString
  | String c s' =>
      match rstrip s' with
      | EmptyString => if is_space c then EmptyString else String c EmptyString
      | r => String c r
      end
  end.

(** [s.strip()] *)
Definition strip (s : string) : string := rstrip (lstrip s).

(** Truth value of a string in a condition: non-empty. *)
Definition truthy (s : string) : bool :=
  match s with
  | EmptyString => false
  | String _ _ => true
  end.

(** [sep.join(parts)] *)
Definition join (sep : string) (parts : list string) : string :=
  String.concat sep parts.

(** [c.lower()] on the ASCII range. *)
Definition lower_char (c : ascii) : ascii :=
  let n := nat_of_ascii c in
  if ((65 <=? n)%nat && (n <=? 90)%nat) then ascii_of_nat (n + 32) else c.

(** [s.lower()] *)
Fixpoint lower (s : string) : string :=
  match s with
  | EmptyString => EmptyString
  | String c s' => String (lower_char c) (lower s')
  end.

(** Every character of [s] is white space. *)
Fixpoint all_space (s : string) : bool :=
  match s with
  | EmptyString => true
  | String c s' => is_space c && all_space s'
  end.

(** Values found in the decoded JSON word records. *)
Inductive value :=
| VInt (z : Z)
| VStr (s : string).

#[global] Instance value_eq_dec : EqDecision value.
Proof. solve_decision. Defined.

(** [str(v)], as used by an f-string placeholder [{v}]. *)
Definition format_value (v : value) : string :=
  match v with
  | VInt z => pretty z
  | VStr s => s
  end.

(** Exceptions that the modelled code can raise. *)
Inductive exn :=
| KeyError (key : string)
| TypeError
| Exception (msg : string).

(** Outcome of a computation that may raise. *)
Inductive result (A : Type) :=
| Ok (a : A)
| Raise (e : exn).
Arguments Ok {A} a.
Arguments Raise {A} e.

#[global] Instance result_ret : MRet result := fun A a => Ok a.
#[global] Instance result_bind : MBind result := fun A B f m =>
  match m with
  | Ok a => f a
  | Raise e => Raise e
  end.

(** [d[key]] on a dict. *)
Definition getitem (d : gmap string value) (key : string) : result value :=
  match d !! key with
  | Some v => Ok v
  | None => Raise (KeyError key)
  end.

(** [left + v] where [left] is a [str]: concatenation when [v] is a [str],
    [TypeError] otherwise. *)
Definition str_add (left : string) (v : value) : result string :=
  match v with
  | VStr s => Ok (left +:+ s)
  | VInt _ => Raise TypeError
  end.

(** The double quote character. *)
Definition dquote : string := String "034"%char EmptyString.

(** [str(e)] for an exception. *)
Definition str_exn (e : exn) : string :=
  match e with
  | KeyError key => "'" +:+ key +:+ "'"
  | TypeError =>
      "can only concatenate str (not " +:+ dquote +:+ "int" +:+ dquote
        +:+ ") to str"
  | Exception msg => msg
  end.

End Py.

Import Py.

(** ** Turn segmentation: [create_transcript] *)

Module Transcript.

(** The three variables of the loop of [create_transcript]. *)
Record loop_state := {
  lines : list string;
  curr_speaker : value;
  curr_line : string
}.

(** State before the loop: [lines = []], [curr_speaker = 0],
    [curr_line = '']. *)
Definition init_state : loop_state :=
  {| lines := []; curr_speaker := VInt 0; curr_line := "" |}.

(** [f"SPEAKER {curr_speaker}:"] *)
Definition tag (sp : value) : string :=
  "SPEAKER " +:+ format_value sp +:+ ":".

(** One iteration of [for word_struct in words]. *)
Definition loop_body (st : loop_state) (word_struct : gmap string value)
  : result loop_state :=
  word_speaker ← getitem word_struct "speaker";
  word ← getitem word_struct "punctuated_word";
  if decide (word_speaker = curr_speaker st) then
    piece ← str_add " " word;
    mret {| lines := lines st;
            curr_speaker := curr_speaker st;
            curr_line := curr_line st +:+ piece |}
  else
    let full_line := tag (curr_speaker st) +:+ curr_line st +:+ nl in
    piece ← str_add " " word;
    mret {| lines := lines st ++ [full_line];
            curr_speaker := word_speaker;
            curr_line := piece |}.

(** The whole [for] loop. *)
Fixpoint run_loop (st : loop_state) (words : list (gmap string value))
  : result loop_state :=
  match words with
  | [] => mret st
  | word_struct :: rest =>
      st' ← loop_body st word_struct;
      run_loop st' rest
  end.

(** The shared body of both copies of [create_transcript], from the
    extracted [words] list to the returned string. *)
Definition transcript_of_words (words : list (gmap string value))
  : result string :=
  st ← run_loop init_state words;
  mret (join nl (lines st ++ [tag (curr_speaker st) +:+ curr_line st])).

End Transcript.

(** src/utils.py: the body runs under [try]; an exception is logged with
    [logger.error] and raised again.  The result pairs the log with the
    outcome. *)
Module Utils.

Definition create_transcript (words : list (gmap string value))
  : list string * result string :=
  match Transcript.transcript_of_words words with
  | Ok s => ([], Ok s)
  | Raise e => (["Error creating transcript: " +:+ str_exn e], Raise e)
  end.

End Utils.

(** src/app.py: a falsy response (here [None]) yields the empty string;
    otherwise the same loop runs and exceptions propagate. *)
Module App.

Definition create_transcript (response : option (list (gmap string value)))
  : result string :=
  match response with
  | None => Ok ""
  | Some words => Transcript.transcript_of_words words
  end.

End App.

(** ** The turn view of the same loop *)

Module Segmenter.

(** A recognised word: speaker id and punctuated text. *)
Record Word := { speaker : nat; text : string }.

(** A speaker turn: the speaker id and the accumulated [curr_line]. *)
Record Turn := { turn_speaker : nat; turn_text : string }.

#[global] Instance Word_eq_dec : EqDecision Word.
Proof. solve_decision. Defined.
#[global] Instance Turn_eq_dec : EqDecision Turn.
Proof. solve_decision. Defined.

(** The dict the transcription service delivers for a word. *)
Definition word_dict (w : Word) : gmap string value :=
  <["speaker" := VInt (Z.of_nat (speaker w))]>
    (<["punctuated_word" := VStr (text w)]> ∅).

(** The loop of [create_transcript] on well-formed words, keeping each
    closed line as the pair (speaker, text) it is printed from. *)
Fixpoint segment_loop (closed : list Turn) (cs : nat) (cl : string)
  (words : list Word) : list Turn * Turn :=
  match words with
  | [] => (closed, {| turn_speaker := cs; turn_text := cl |})
  | w :: rest =>
      if decide (speaker w = cs) then
        segment_loop closed cs (cl +:+ (" " +:+ text w)) rest
      else
        segment_loop (closed ++ [{| turn_speaker := cs; turn_text := cl |}])
          (speaker w) (" " +:+ text w) rest
  end.

(** All turns: the closed ones, then the final line appended after the
    loop. *)
Definition segment (words : list Word) : list Turn :=
  let '(closed, last) := segment_loop [] 0 "" words in
  closed ++ [last].

(** A closed line, [tag + curr_line + '\n']. *)
Definition render_closed (t : Turn) : string :=
  Transcript.tag (VInt (Z.of_nat (turn_speaker t))) +:+ turn_text t +:+ nl.

(** The final line, [f"SPEAKER {curr_speaker}:" + curr_line]. *)
Definition render_last (t : Turn) : string :=
  Transcript.tag (VInt (Z.of_nat (turn_speaker t))) +:+ turn_text t.

(** The entries of [lines] after the final append: every turn but the
    last is a closed line. *)
Fixpoint render_lines (turns : list Turn) : list string :=
  match turns with
  | [] => []
  | [t] => [render_last t]
  | t :: rest => render_closed t :: render_lines rest
  end.

(** The returned string, ['\n'.join(lines)], from the turns. *)
Definition render_turns (turns : list Turn) : string :=
  join nl (render_lines turns).

(** Dropping the blanks a text starts with. *)
Fixpoint lstrip_blanks (s : string) : string :=
  match s with
  | String " " s' => lstrip_blanks s'
  | _ => s
  end.

(** A turn with the leading blanks of its text ignored. *)
Definition trim_turn (t : Turn) : Turn :=
  {| turn_speaker := turn_speaker t;
     turn_text := lstrip_blanks (turn_text t) |}.

(** A turn [t] stands for the run of words [g]: every word of the run has
    the turn's speaker, and the turn's text is each word of the run
    preceded by one blank, which, leading blanks ignored, is the words
    joined by single blanks. *)
Definition turn_of_run (t : Turn) (g : list Word) : Prop :=
  Forall (fun w => speaker w = turn_speaker t) g
  /\ turn_text t = String.concat "" (map (fun w => " " +:+ text w) g)
  /\ lstrip_blanks (turn_text t) = lstrip_blanks (join " " (map text g)).

(** No two neighbours of a list are equal. *)
Fixpoint adjacent_distinct (l : list nat) : Prop :=
  match l with
  | x :: ((y :: _) as rest) => x <> y /\ adjacent_distinct rest
  | _ => True
  end.

(** A list with each run of equal neighbours collapsed to one element. *)
Fixpoint collapse_runs (l : list nat) : list nat :=
  match l with
  | [] => []
  | x :: rest =>
      match rest with
      | y :: _ => if decide (x = y) then collapse_runs rest
                  else x :: collapse_runs rest
      | [] => [x]
      end
  end.

(** The segmenter as section 4.1 of the specification words it: the
    current speaker starts as the first word's speaker, or the sentinel 0
    when there is no word; the loop and the final append are those of
    [segment]. *)
Definition segment_first_speaker_init (words : list Word) : list Turn :=
  let start := match words with
               | [] => 0
               | w :: _ => speaker w
               end in
  let '(closed, last) := segment_loop [] start "" words in
  closed ++ [last].

(** A word record that has both fields, the text being a string. *)
Definition well_formed (w : gmap string value) : Prop :=
  is_Some (w !! "speaker") /\ exists s, w !! "punctuated_word" = Some (VStr s).

(** A word record lacking one of the two fields. *)
Definition lacks_field (w : gmap string value) : Prop :=
  w !! "speaker" = None \/ w !! "punctuated_word" = None.

(** The field whose lookup fails first on such a record. *)
Definition missing_key (w : gmap string value) : string :=
  match w !! "speaker" with
  | None => "speaker"
  | Some _ => "punctuated_word"
  end.

(** The error of a failed call names the index of the offending record:
    some reading [index_of] of the exception gives back, for every input
    whose first record lacking a field is at position [length pre], that
    position. *)
Definition names_offending_index (index_of : exn -> nat) : Prop :=
  forall (pre post : list (gmap string value)) (w : gmap string value),
    Forall well_formed pre -> lacks_field w ->
    exists e, Transcript.transcript_of_words (pre ++ w :: post) = Raise e
              /\ index_of e = length pre.

End Segmenter.

Import Segmenter.

(** ** The live transcript aggregator *)

(** The fields of a Deepgram live result that the handlers read:
    [result.channel.alternatives[0].transcript], [result.is_final] and
    [result.speech_final]. *)
Record LiveResult := {
  transcript : string;
  is_final : bool;
  speech_final : bool
}.

(** Observable effects of the handlers, in the order they happen. *)
Inductive effect :=
| CallbackCalled (text : string)
| CollectorReset
| CompleteSet
| Printed (line : string)
| AudioStopped
| ConnectionFinished.

#[global] Instance effect_eq_dec : EqDecision effect.
Proof. solve_decision. Defined.

(** The texts the callback was invoked with, in order. *)
Fixpoint callback_calls (effects : list effect) : list string :=
  match effects with
  | [] => []
  | CallbackCalled text :: rest => text :: callback_calls rest
  | _ :: rest => callback_calls rest
  end.

(** live_speech.py *)
Module LiveSpeech.

Record TranscriptCollector := { transcript_parts : list string }.

Definition reset (self : TranscriptCollector) : TranscriptCollector :=
  {| transcript_parts := [] |}.

(** [__init__] calls [reset]. *)
Definition new : TranscriptCollector := {| transcript_parts := [] |}.

(** [if part.strip(): self.transcript_parts.append(part)] *)
Definition add_part (self : TranscriptCollector) (part : string)
  : TranscriptCollector :=
  if truthy (strip part) then
    {| transcript_parts := transcript_parts self ++ [part] |}
  else self.

Definition get_transcript (self : TranscriptCollector) : string :=
  join " " (transcript_parts self).

(** The [on_message] closure of [main]: only final results are kept. *)
Definition on_message (collector : TranscriptCollector) (result : LiveResult)
  : TranscriptCollector * list effect :=
  if is_final result then
    let sentence := transcript result in
    if truthy (strip sentence) then
      (add_part collector sentence,
       [Printed (nl +:+ "Transcribed: " +:+ sentence)])
    else (collector, [])
  else (collector, []).

End LiveSpeech.

(** src/deepgram_live.py *)
Module DeepgramLive.

Record TranscriptCollector := { transcript_parts : list string }.

Definition reset (self : TranscriptCollector) : TranscriptCollector :=
  {| transcript_parts := [] |}.

(** [__init__] calls [reset]. *)
Definition new : TranscriptCollector := {| transcript_parts := [] |}.

(** [self.transcript_parts.append(part)], unconditionally. *)
Definition add_part (self : TranscriptCollector) (part : string)
  : TranscriptCollector :=
  {| transcript_parts := transcript_parts self ++ [part] |}.

Definition get_full_transcript (self : TranscriptCollector) : string :=
  join " " (transcript_parts self).

(** The transcriber object.  [callback] and [transcription_complete] are
    [None] after [__init__]; an [asyncio.Event] is modelled by its flag. *)
Record DeepgramLiveTranscriber := {
  transcript_collector : TranscriptCollector;
  callback : option (string -> result unit);
  transcription_complete : option bool
}.

(** [__init__], once the API key was found. *)
Definition init : DeepgramLiveTranscriber :=
  {| transcript_collector := new;
     callback := None;
     transcription_complete := None |}.

Definition set_collector (self : DeepgramLiveTranscriber)
  (c : TranscriptCollector) : DeepgramLiveTranscriber :=
  {| transcript_collector := c;
     callback := callback self;
     transcription_complete := transcription_complete self |}.

(** [if self.transcription_complete: self.transcription_complete.set()] *)
Definition set_complete (self : DeepgramLiveTranscriber)
  : DeepgramLiveTranscriber * list effect :=
  match transcription_complete self with
  | Some _ =>
      ({| transcript_collector := transcript_collector self;
          callback := callback self;
          transcription_complete := Some true |}, [CompleteSet])
  | None => (self, [])
  end.

(** Lines 62 to 64: the callback is invoked when the full sentence is not
    blank and a callback is registered. *)
Definition emit (self : DeepgramLiveTranscriber) (full_sentence : string)
  : result unit * list effect :=
  if truthy (strip full_sentence) then
    match callback self with
    | Some cb => (cb full_sentence, [CallbackCalled full_sentence])
    | None => (Ok tt, [])
    end
  else (Ok tt, []).

(** [on_message]: the body runs under [try]; an exception is printed and
    swallowed, whatever was done before it stays done. *)
Definition on_message (self : DeepgramLiveTranscriber) (result : LiveResult)
  : DeepgramLiveTranscriber * list effect :=
  let sentence := transcript result in
  if negb (truthy (strip sentence)) then (self, [])
  else if negb (speech_final result) then
    (set_collector self (add_part (transcript_collector self) sentence), [])
  else
    let self1 :=
      set_collector self (add_part (transcript_collector self) sentence) in
    let full_sentence := get_full_transcript (transcript_collector self1) in
    match emit self1 full_sentence with
    | (Raise e, effs) =>
        (self1, effs ++ [Printed ("Error processing message: " +:+ str_exn e)])
    | (Ok _, effs) =>
        let self2 := set_collector self1 (reset (transcript_collector self1)) in
        let '(self3, effs3) := set_complete self2 in
        (self3, effs ++ [CollectorReset] ++ effs3)
    end.

Definition on_error (self : DeepgramLiveTranscriber) (error : string)
  : DeepgramLiveTranscriber * list effect :=
  (self, [Printed ("Deepgram error: " +:+ error)]).

Definition on_close (self : DeepgramLiveTranscriber) (code reason : string)
  : DeepgramLiveTranscriber * list effect :=
  (self, [Printed ("Connection closed with code " +:+ code +:+ ": "
                     +:+ reason)]).

Definition on_metadata (self : DeepgramLiveTranscriber) (metadata : string)
  : DeepgramLiveTranscriber * list effect :=
  (self, [Printed ("Received metadata: " +:+ metadata)]).

(** [stop] *)
Definition stop (self : DeepgramLiveTranscriber)
  : DeepgramLiveTranscriber * list effect :=
  set_complete self.

(** What the connection delivers to the registered handlers. *)
Inductive stream_event :=
| Transcript (result : LiveResult)
| Error (error : string)
| Close (code reason : string)
| Metadata (metadata : string).

(** The handler registered for each event kind in [process_audio]. *)
Definition dispatch (self : DeepgramLiveTranscriber) (ev : stream_event)
  : DeepgramLiveTranscriber * list effect :=
  match ev with
  | Transcript result => on_message self result
  | Error error => on_error self error
  | Close code reason => on_close self code reason
  | Metadata metadata => on_metadata self metadata
  end.

(** The state of a [process_audio] call. *)
Record session := {
  transcriber : DeepgramLiveTranscriber;
  effects : list effect;
  finished : bool;
  undelivered : list stream_event
}.

(** [await self.transcription_complete.wait()] followed by the [finally]
    block: handlers run on the events the connection delivers, one at a
    time, for as long as the flag is not set; once it is set the wait
    returns, the audio source is stopped and the connection finished, and
    the events that were still to come are not delivered.  When the
    events run out with the flag unset the call is still waiting. *)
Fixpoint wait_complete (self : DeepgramLiveTranscriber)
  (effs : list effect) (events : list stream_event) : session :=
  match transcription_complete self with
  | Some true =>
      {| transcriber := self;
         effects := effs ++ [AudioStopped; ConnectionFinished];
         finished := true;
         undelivered := events |}
  | _ =>
      match events with
      | [] =>
          {| transcriber := self; effects := effs; finished := false;
             undelivered := [] |}
      | ev :: rest =>
          let '(self', effs') := dispatch self ev in
          wait_complete self' (effs ++ effs') rest
      end
  end.

(** [process_audio]: registers the callback, creates a fresh event,
    connects the handlers and waits. *)
Definition process_audio (self : DeepgramLiveTranscriber)
  (cb : string -> result unit) (events : list stream_event) : session :=
  let self1 :=
    {| transcript_collector := transcript_collector self;
       callback := Some cb;
       transcription_complete := Some false |} in
  wait_complete self1 [] events.

End DeepgramLive.

(** ** The minutes generator: src/mom_generator.py *)

Module MoMGenerator.

(** The keyword arguments of [self.client.chat.completions.create]; the
    single message has role [user] and the given [content]. *)
Record ChatRequest := {
  model : string;
  content : string;
  max_tokens : Z;
  temperature : option Q;
  presence_penalty : option Q;
  frequency_penalty : option Q
}.

(** The external chat service: [client n request] is the outcome of the
    call number [n] (counted from 0) made by the modelled function, either
    [response.choices[0].message.content] or an exception. *)
Definition service := nat -> ChatRequest -> result string.

(** Effects of the generator, in order: requests sent and lines printed. *)
Inductive api_effect :=
| Sent (request : ChatRequest)
| Logged (line : string).

(** The requests sent, in order. *)
Fixpoint sent (effs : list api_effect) : list ChatRequest :=
  match effs with
  | [] => []
  | Sent request :: rest => request :: sent rest
  | Logged _ :: rest => sent rest
  end.

(** The f-string of [translate_text]. *)
Definition translate_prompt (text target_language : string) : string :=
  join nl
    [ "";
      "        Translate the following diarized output to "
        +:+ target_language +:+ ":";
      "        ";
      "        " +:+ text;
      "        ";
      "        This is output text from a diarization model having multiple speakers. ";
      "        Find the person names from the output text given here and replace the speaker ids ";
      "        with corresponding person names. Generate complete words in "
        +:+ target_language +:+ ".";
      "        Give the output in conversational manner.";
      "        " ].

Definition translate_request (text target_language : string) : ChatRequest :=
  {| model := "gpt-3.5-turbo";
     content := translate_prompt text target_language;
     max_tokens := 2000;
     temperature := None;
     presence_penalty := None;
     frequency_penalty := None |}.

(** [translate_text] *)
Definition translate_text (client : service) (text target_language : string)
  : result string * list api_effect :=
  if decide (lower target_language = "english") then (Ok text, [])
  else
    let request := translate_request text target_language in
    match client 0%nat request with
    | Ok translated => (Ok translated, [Sent request])
    | Raise e =>
        (Raise e, [Sent request; Logged ("Translation error: " +:+ str_exn e)])
    end.

(** [create_mom_prompt]; [current_date] is
    [datetime.now().strftime("%d-%m-%Y")]. *)
Definition create_mom_prompt (current_date transcript language : string)
  : string :=
  join nl
    [ "";
      "        You are a professional Minutes of Meeting generator. Using the conversation transcript below:";
      "        ";
      "        1. Identify all participants and their roles";
      "        2. Create a concise summary of the main discussion points";
      "        3. List all decisions made during the meeting";
      "        4. Create a detailed table containing:";
      "           - Tasks assigned";
      "           - Person responsible";
      "           - Current status";
      "           - Deadlines";
      "        5. Note any follow-up actions required";
      "        6. Include any important dates mentioned";
      "        ";
      "        Today's date is " +:+ current_date +:+ ".";
      "        Generate the Minutes of Meeting in " +:+ language +:+ " only.";
      "        Format the output in a professional manner with clear sections and bullet points.";
      "";
      "        Transcript:";
      "        " +:+ transcript;
      "        " ].

Definition mom_request (prompt : string) : ChatRequest :=
  {| model := "gpt-3.5-turbo";
     content := prompt;
     max_tokens := 2000;
     temperature := Some (7 # 10)%Q;
     presence_penalty := Some (6 # 10)%Q;
     frequency_penalty := Some (3 # 10)%Q |}.

(** The loop [for attempt in range(max_retries)] on the attempt numbers
    still to run; [made] counts the calls already made.  Falling off the
    end of the loop returns [None]. *)
Fixpoint retry_loop (client : service) (request : ChatRequest)
  (max_retries : Z) (attempts : list Z) (made : nat)
  : result (option string) * list api_effect :=
  match attempts with
  | [] => (Ok None, [])
  | attempt :: rest =>
      match client made request with
      | Ok generated => (Ok (Some generated), [Sent request])
      | Raise e =>
          if decide (attempt = (max_retries - 1)%Z) then
            (Raise e,
             [Sent request;
              Logged ("Failed to generate MoM after " +:+ pretty max_retries
                        +:+ " attempts: " +:+ str_exn e)])
          else
            let '(r, effs) :=
              retry_loop client request max_retries rest (S made) in
            (r, Sent request
                  :: Logged ("Attempt " +:+ pretty (attempt + 1)%Z
                               +:+ " failed, retrying...")
                  :: effs)
      end
  end.

(** Every call numbered from [lo] up to, not including, [hi] fails. *)
Definition fails_between (client : service) (request : ChatRequest)
  (lo hi : nat) : Prop :=
  forall j, (lo <= j < hi)%nat -> exists e, client j request = Raise e.

(** [generate_mom]: the prompt is built once, before the loop. *)
Definition generate_mom (client : service)
  (current_date transcript language : string) (max_retries : Z)
  : result (option string) * list api_effect :=
  let prompt := create_mom_prompt current_date transcript language in
  retry_loop client (mom_request prompt) max_retries (seqZ 0 max_retries) 0.

End MoMGenerator.

(** ** Sample inputs *)

Module Samples.

Definition words_hi : list Word :=
  [ {| speaker := 0; text := "Hi" |}; {| speaker := 0; text := "there" |};
    {| speaker := 1; text := "Hello" |}; {| speaker := 0; text := "Bye" |} ].

Definition turns_hi : list Turn :=
  [ {| turn_speaker := 0; turn_text := "Hi there" |};
    {| turn_speaker := 1; turn_text := "Hello" |};
    {| turn_speaker := 0; turn_text := "Bye" |} ].

Definition words_one : list Word := [ {| speaker := 1; text := "Hello" |} ].

Definition good_word : gmap string value :=
  word_dict {| speaker := 0; text := "Hi" |}.

(** A record without the [speaker] key. *)
Definition no_speaker : gmap string value :=
  <["punctuated_word" := VStr "Hi"]> ∅.

(** A record without the [punctuated_word] key. *)
Definition no_text : gmap string value :=
  <["speaker" := VInt 0]> ∅.

(** The three recognition events of the live scenario. *)
Definition live_events : list DeepgramLive.stream_event :=
  [ DeepgramLive.Transcript
      {| transcript := "Hel"; is_final := false; speech_final := false |};
    DeepgramLive.Transcript
      {| transcript := "Hello"; is_final := true; speech_final := false |};
    DeepgramLive.Transcript
      {| transcript := " world"; is_final := true; speech_final := true |} ].

(** A callback that returns normally, and one that raises. *)
Definition quiet_callback : string -> result unit := fun _ => Ok tt.
Definition failing_callback : string -> result unit :=
  fun _ => Raise (Exception "boom").

(** A transcriber inside [process_audio], with a failing callback. *)
Definition failing_transcriber : DeepgramLive.DeepgramLiveTranscriber :=
  {| DeepgramLive.transcript_collector := DeepgramLive.new;
     DeepgramLive.callback := Some failing_callback;
     DeepgramLive.transcription_complete := Some false |}.

Definition final_hello : LiveResult :=
  {| transcript := "Hello"; is_final := true; speech_final := true |}.

(** A chat service that fails twice, then answers. *)
Definition flaky_service : MoMGenerator.service :=
  fun n _ => if decide (n < 2)%nat then Raise (Exception "unavailable")
             else Ok "minutes".

(** A chat service that always fails, each time with its own error. *)
Definition dead_service : MoMGenerator.service :=
  fun n _ => Raise (Exception ("failure " +:+ pretty n)).

Definition final_again : LiveResult :=
  {| transcript := "again"; is_final := true; speech_final := true |}.

End Samples.

(** ** The live handlers on a stream of results *)

Module LiveStream.

(** A result on which [on_message] runs its finalize step: the transcript
    is not blank and [speech_final] is set. *)
Definition closes (r : LiveResult) : bool :=
  negb (all_space (transcript r)) && speech_final r.

(** The transcripts that reach [add_part]: those that are not blank. *)
Definition kept (results : list LiveResult) : list string :=
  List.filter (fun s => negb (all_space s)) (map transcript results).

(** [on_message] of src/deepgram_live.py applied to the results in the
    order they arrive, the effects put end to end. *)
Fixpoint on_messages (self : DeepgramLive.DeepgramLiveTranscriber)
  (results : list LiveResult)
  : DeepgramLive.DeepgramLiveTranscriber * list effect :=
  match results with
  | [] => (self, [])
  | r :: rest =>
      let '(self1, effs1) := DeepgramLive.on_message self r in
      let '(self2, effs2) := on_messages self1 rest in
      (self2, effs1 ++ effs2)
  end.

(** The results among the events of a connection. *)
Fixpoint results_of (events : list DeepgramLive.stream_event)
  : list LiveResult :=
  match events with
  | [] => []
  | DeepgramLive.Transcript r :: rest => r :: results_of rest
  | _ :: rest => results_of rest
  end.

(** An event that makes [on_message] run its finalize step. *)
Definition closes_event (ev : DeepgramLive.stream_event) : bool :=
  match ev with
  | DeepgramLive.Transcript r => closes r
  | _ => false
  end.

(** The [on_message] closure of live_speech.py applied to the results in
    the order they arrive. *)
Fixpoint collect (collector : LiveSpeech.TranscriptCollector)
  (results : list LiveResult) : LiveSpeech.TranscriptCollector * list effect :=
  match results with
  | [] => (collector, [])
  | r :: rest =>
      let '(c1, effs1) := LiveSpeech.on_message collector r in
      let '(c2, effs2) := collect c1 rest in
      (c2, effs1 ++ effs2)
  end.

(** The end of the [finally] block of [main] in live_speech.py: a
    transcript that is not empty is saved under a name made from
    [timestamp], the value of [datetime.now().strftime("%Y%m%d_%H%M%S")].
    The result is the file written, as name and content, if any. *)
Definition save_transcript (collector : LiveSpeech.TranscriptCollector)
  (timestamp : string) : option (string * string) :=
  let final_transcript := LiveSpeech.get_transcript collector in
  if truthy final_transcript then
    Some ("transcript_" +:+ timestamp +:+ ".txt", final_transcript)
  else None.

End LiveStream.

(** ** Module-level state of src/mom_generator.py *)

Module MoMModule.

(** The error of a constructor that finds no API key. *)
Inductive init_error :=
| ValueError (msg : string).

(** A [MoMGenerator] instance: the key its client was built from. *)
Record generator := { api_key : string }.

(** [MoMGenerator.__init__]: [os.getenv("OPEN_AI_TOKEN")] on the
    environment [env]; a missing and an empty value are both falsy. *)
Definition init (env : gmap string string) : init_error + generator :=
  match env !! "OPEN_AI_TOKEN" with
  | Some key =>
      if truthy key then inr {| api_key := key |}
      else inl (ValueError "OpenAI API key not found in environment variables")
  | None => inl (ValueError "OpenAI API key not found in environment variables")
  end.

(** [get_mom_generator] on the global [_mom_generator]; the result pairs
    the outcome with the new value of the global. *)
Definition get_mom_generator (env : gmap string string)
  (_mom_generator : option generator)
  : (init_error + generator) * option generator :=
  match _mom_generator with
  | None =>
      match init env with
      | inr g => (inr g, Some g)
      | inl e => (inl e, None)
      end
  | Some g => (inr g, Some g)
  end.

(** The module-level [generate_mom(transcript, language)]: the global
    instance's [generate_mom] with the default [max_retries] of 3.
    [client key] is the chat service reached with the API key [key]. *)
Definition generate_mom (client : string -> MoMGenerator.service)
  (env : gmap string string) (_mom_generator : option generator)
  (current_date transcript language : string)
  : (init_error + (result (option string) * list MoMGenerator.api_effect))
    * option generator :=
  match get_mom_generator env _mom_generator with
  | (inr g, glob) =>
      (inr (MoMGenerator.generate_mom (client (api_key g)) current_date
              transcript language 3), glob)
  | (inl e, glob) => (inl e, glob)
  end.

(** The module-level [translate_text(text, target_language)]. *)
Definition translate_text (client : string -> MoMGenerator.service)
  (env : gmap string string) (_mom_generator : option generator)
  (text target_language : string)
  : (init_error + (result string * list MoMGenerator.api_effect))
    * option generator :=
  match get_mom_generator env _mom_generator with
  | (inr g, glob) =>
      (inr (MoMGenerator.translate_text (client (api_key g)) text
              target_language), glob)
  | (inl e, glob) => (inl e, glob)
  end.

End MoMModule.

(** ** File names: src/utils.py *)

Module FileNames.

(** A Python string as the sequence of its characters, each given by its
    Unicode code point; [code_points] reads a string of the ASCII range. *)
Definition code_points (s : string) : list N :=
  map N_of_ascii (list_ascii_of_string s).

(** The characters of the literal of [sanitize_filename]: dot, underscore,
    hyphen and blank. *)
Definition kept_marks : list N := code_points "._- ".

Section Sanitize.

(** [c.isalnum()] for the character of code point [c].  The predicate is
    Python's, read off the Unicode character database, which is no part of
    the repository. *)
Variable isalnum : N -> bool.

(** The condition of the generator expression:
    [c.isalnum() or c in "._- "]. *)
Definition keeps (c : N) : bool :=
  isalnum c || existsb (N.eqb c) kept_marks.

(** [sanitize_filename]: the characters that pass the condition, in order,
    joined by the empty string. *)
Definition sanitize_filename (filename : list N) : list N :=
  List.filter keeps filename.

End Sanitize.

(** The value of [str.isalnum] on the ASCII range: digits and letters. *)
Definition ascii_alnum (c : N) : bool :=
  ((48 <=? c)%N && (c <=? 57)%N)
  || ((65 <=? c)%N && (c <=? 90)%N)
  || ((97 <=? c)%N && (c <=? 122)%N).

(** [isalnum] has, on the ASCII range, the values of [str.isalnum]. *)
Definition ascii_exact (isalnum : N -> bool) : Prop :=
  forall c, (c < 128)%N -> isalnum c = ascii_alnum c.

(** An [isalnum] for the witnesses: the ASCII values, and true of the
    letter e with acute accent, code point 233, as Python's is. *)
Definition sample_isalnum (c : N) : bool := ascii_alnum c || (c =? 233)%N.

End FileNames.

(** ** The page of src/app.py *)

Module AppPage.

(** What the page shows and sends, in order.  [TimeTaken step] stands for
    the line [f"Time taken to {step}: {t:.2f} seconds"], whose elapsed time
    is not modelled. *)
Inductive ui :=
| Title (text : string)
| ErrorBox (text : string)
| WriteLine (text : string)
| TimeTaken (step : string)
| StatusComplete
| Subheader (text : string)
| InfoBox (text : string)
| DownloadButton (label data file_name mime : string)
| Request (request : MoMGenerator.ChatRequest).

(** The requests sent to the chat service, in order. *)
Fixpoint requests (shown : list ui) : list MoMGenerator.ChatRequest :=
  match shown with
  | [] => []
  | Request request :: rest => request :: requests rest
  | _ :: rest => requests rest
  end.

(** How a call of [authenticate_user] ends: it returns, or [st.rerun()]
    stops the script run. *)
Inductive auth_outcome :=
| Returns (value : bool)
| Reruns.

(** [authenticate_user].  [authenticated] is the entry of
    [st.session_state] under the key of that name, [None] when the key is
    absent; [username] and [password] are the values of the two text
    inputs and [login_clicked] the value of [st.button("Login")]. *)
Definition authenticate_user (authenticated : option bool)
  (username password : string) (login_clicked : bool)
  : auth_outcome * option bool * list ui :=
  let flag := match authenticated with
              | None => false
              | Some b => b
              end in
  if negb flag then
    if login_clicked then
      if decide (strip username = "admin") then
        if decide (strip password = "admin") then
          (Reruns, Some true, [Title "Log in to Application"])
        else
          (Returns false, Some flag,
           [Title "Log in to Application";
            ErrorBox "Invalid username or password"])
      else
        (Returns false, Some flag,
         [Title "Log in to Application";
          ErrorBox "Invalid username or password"])
    else (Returns false, Some flag, [Title "Log in to Application"])
  else (Returns true, Some flag, []).

(** [transcribe_audio]: [dg] is the outcome of the Deepgram call on the
    audio, as the word list of its response; an exception is shown and
    [None] returned. *)
Definition transcribe_audio (dg : result (list (gmap string value)))
  : option (list (gmap string value)) * list ui :=
  match dg with
  | Ok words => (Some words, [])
  | Raise e => (None, [ErrorBox ("Transcription error: " +:+ str_exn e)])
  end.

(** The prompt of [translate_text]. *)
Definition translate_prompt (text target_language : string) : string :=
  let sub_prompt :=
    if decide (lower target_language = "english") then ""
    else " Translate the following diarized output to " +:+ target_language in
  sub_prompt +:+ nl +:+ text +:+ nl +:+ nl
    +:+ "This is the output text having multiple speakers from a diarization model. "
    +:+ "Find the person names from the output text given here and replace the speaker ids "
    +:+ "like SPEAKER 0, SPEAKER 1 etc with corresponding person names. "
    +:+ "Generate complete words in " +:+ target_language +:+ ".".

Definition translate_request (text target_language : string)
  : MoMGenerator.ChatRequest :=
  {| MoMGenerator.model := "gpt-3.5-turbo";
     MoMGenerator.content := translate_prompt text target_language;
     MoMGenerator.max_tokens := 2000;
     MoMGenerator.temperature := None;
     MoMGenerator.presence_penalty := None;
     MoMGenerator.frequency_penalty := None |}.

(** [translate_text]: one call; an exception is shown and the text given
    back.  [made] is the number of calls already made on the client. *)
Definition translate_text (text target_language : string)
  (openai_client : MoMGenerator.service) (made : nat) : string * list ui :=
  let request := translate_request text target_language in
  match openai_client made request with
  | Ok translated => (translated, [Request request])
  | Raise e =>
      (text, [Request request; ErrorBox ("Translation error: " +:+ str_exn e)])
  end.

(** [create_prompt]; [current_date] is
    [datetime.now().strftime("%d-%m-%Y")]. *)
Definition create_prompt (current_date transcript language : string)
  : string :=
  join nl
    [ "";
      "    You are a MoM generator from the following transcript. Take the below conversation ";
      "    from a meeting and generate the minutes of the meeting and create a detailed table ";
      "    containing the list of tasks assigned to each person, the status of each task, ";
      "    and the deadlines. Write dates as well in the output table. ";
      "    Today is " +:+ current_date
        +:+ ". Identify the speaker names from the meeting transcript.";
      "    ";
      "    Generate the Minutes of Meeting in " +:+ language +:+ " only.";
      "    Format the output with clear sections:";
      "    - Meeting Date";
      "    - Attendees";
      "    - Meeting Agenda";
      "    - Discussion Points";
      "    - Task Assignments (in table format)";
      "    - Next Steps";
      "    - Meeting Conclusion";
      "";
      "    Transcript:";
      "    " +:+ transcript;
      "    " ].

Definition mom_request (prompt : string) : MoMGenerator.ChatRequest :=
  {| MoMGenerator.model := "gpt-3.5-turbo";
     MoMGenerator.content := prompt;
     MoMGenerator.max_tokens := 1500;
     MoMGenerator.temperature := Some (7 # 10)%Q;
     MoMGenerator.presence_penalty := None;
     MoMGenerator.frequency_penalty := None |}.

(** [generate_mom]: one call; an exception is shown and [None] returned. *)
Definition generate_mom (prompt : string)
  (openai_client : MoMGenerator.service) (made : nat)
  : option string * list ui :=
  let request := mom_request prompt in
  match openai_client made request with
  | Ok generated => (Some generated, [Request request])
  | Raise e =>
      (None, [Request request; ErrorBox ("MoM Generation error: " +:+ str_exn e)])
  end.

(** The [try] block that [main] runs on a click of "Generate MoM", the same
    in the upload and in the live branch, from the audio on. *)
Definition generate_clicked (dg : result (list (gmap string value)))
  (openai_client : MoMGenerator.service) (current_date language : string)
  : list ui :=
  let '(response, shown1) := transcribe_audio dg in
  match App.create_transcript response with
  | Raise e =>
      [WriteLine "Transcribing audio..."] ++ shown1
        ++ [ErrorBox ("Error: " +:+ str_exn e)]
  | Ok transcript0 =>
      let '(transcript, shown2, made) :=
        if decide (lower language = "english") then (transcript0, [], 0%nat)
        else
          let '(translated, shown) :=
            translate_text transcript0 language openai_client 0 in
          (translated,
           [WriteLine ("Translating to " +:+ language +:+ "...")] ++ shown
             ++ [TimeTaken "translate"],
           1%nat) in
      let prompt := create_prompt current_date transcript language in
      let '(mom, shown3) := generate_mom prompt openai_client made in
      [WriteLine "Transcribing audio..."] ++ shown1 ++ [TimeTaken "transcribe"]
        ++ shown2
        ++ [WriteLine "Generating MoM..."] ++ shown3
        ++ [TimeTaken "generate MoM"; StatusComplete]
        ++ (if truthy transcript then
              [Subheader ("Transcript in " +:+ language); InfoBox transcript]
            else [])
        ++ (match mom with
            | Some minutes =>
                if truthy minutes then
                  [Subheader "Minutes of Meeting"; InfoBox minutes;
                   DownloadButton "Download Minutes of Meeting" minutes
                     "minutes_of_meeting.txt" "text/plain"]
                else []
            | None => []
            end)
  end.

End AppPage.

(** ** The audio recorder: src/audio_recorder.py *)

Module AudioRecorder.

(** What the recorder does beside changing its state. *)
Inductive audio_effect :=
| FrameSent (audio_bytes : string)
| FramePrinted (line : string).

(** The frames sent, in order. *)
Fixpoint frames_sent (effs : list audio_effect) : list string :=
  match effs with
  | [] => []
  | FrameSent b :: rest => b :: frames_sent rest
  | FramePrinted _ :: rest => frames_sent rest
  end.

(** The fields of the recorder that its methods read and write; the queue
    is first in, first out. *)
Record recorder := {
  audio_queue : list string;
  recording : bool;
  send_function : option (string -> result unit)
}.

(** [start] *)
Definition start (self : recorder) (send : string -> result unit) : recorder :=
  {| audio_queue := audio_queue self;
     recording := true;
     send_function := Some send |}.

(** [stop] *)
Definition stop (self : recorder) : recorder :=
  {| audio_queue := audio_queue self;
     recording := false;
     send_function := None |}.

(** [get_audio_data]: [get_nowait], [None] on an empty queue. *)
Definition get_audio_data (self : recorder) : option string * recorder :=
  match audio_queue self with
  | [] => (None, self)
  | b :: rest =>
      (Some b,
       {| audio_queue := rest;
          recording := recording self;
          send_function := send_function self |})
  end.

(** The loop of [clear_queue]: one [get_nowait] for as long as the queue is
    not empty. *)
Fixpoint drain (queue : list string) : list string :=
  match queue with
  | [] => []
  | _ :: rest => drain rest
  end.

(** [clear_queue] *)
Definition clear_queue (self : recorder) : recorder :=
  {| audio_queue := drain (audio_queue self);
     recording := recording self;
     send_function := send_function self |}.

Section Frames.

(** An audio frame, and its conversion by numpy and scipy to the bytes
    Deepgram expects: [to_ndarray], resampling to the recorder's rate when
    the frame has another one, scaling by 32767 and [astype(np.int16)],
    [tobytes]. *)
Context {frame : Type}.
Variable encode : frame -> result string.

(** [_handle_audio_frame]: the bytes are queued, then sent when a send
    function is set; an exception anywhere is printed. *)
Definition _handle_audio_frame (self : recorder) (audio_frame : frame)
  : recorder * list audio_effect :=
  match encode audio_frame with
  | Raise e =>
      (self, [FramePrinted ("Error handling audio frame: " +:+ str_exn e)])
  | Ok audio_bytes =>
      let self1 :=
        {| audio_queue := audio_queue self ++ [audio_bytes];
           recording := recording self;
           send_function := send_function self |} in
      match send_function self with
      | Some send =>
          match send audio_bytes with
          | Ok _ => (self1, [FrameSent audio_bytes])
          | Raise e =>
              (self1,
               [FrameSent audio_bytes;
                FramePrinted ("Error handling audio frame: " +:+ str_exn e)])
          end
      | None => (self1, [])
      end
  end.

(** The loop [for audio_frame in audio_frames] of [_process_audio_frames]. *)
Fixpoint handle_frames (self : recorder) (audio_frames : list frame)
  : recorder * list audio_effect :=
  match audio_frames with
  | [] => (self, [])
  | audio_frame :: rest =>
      let '(self1, effs1) := _handle_audio_frame self audio_frame in
      let '(self2, effs2) := handle_frames self1 rest in
      (self2, effs1 ++ effs2)
  end.

(** The bytes of the frames that convert without an exception. *)
Fixpoint encoded (audio_frames : list frame) : list string :=
  match audio_frames with
  | [] => []
  | audio_frame :: rest =>
      match encode audio_frame with
      | Ok audio_bytes => audio_bytes :: encoded rest
      | Raise _ => encoded rest
      end
  end.

End Frames.

(** [get_audio_data] called [n] times: the values returned and the
    recorder left. *)
Fixpoint take_audio (n : nat) (self : recorder)
  : list (option string) * recorder :=
  match n with
  | O => ([], self)
  | S n' =>
      let '(got, self1) := get_audio_data self in
      let '(more, self2) := take_audio n' self1 in
      (got :: more, self2)
  end.

End AudioRecorder.

(** ** Utterances in a stream of results *)

Module Utterances.

(** An utterance: results that do not run the finalize step, closed by one
    that does. *)
Definition is_utterance (chunk : list LiveResult) : Prop :=
  exists body fin,
    chunk = body ++ [fin]
    /\ Forall (fun r => LiveStream.closes r = false) body
    /\ LiveStream.closes fin = true.

(** The number of events that run the finalize step. *)
Definition closing_events (events : list DeepgramLive.stream_event) : nat :=
  length (List.filter LiveStream.closes_event events).

End Utterances.

(** ** More sample inputs *)

Module Fixtures.

(** A record whose text is a number. *)
Definition number_text : gmap string value :=
  <["speaker" := VInt 0]> (<["punctuated_word" := VInt 7]> ∅).

Definition interim (text : string) : LiveResult :=
  {| transcript := text; is_final := false; speech_final := false |}.

Definition settled (text : string) : LiveResult :=
  {| transcript := text; is_final := true; speech_final := false |}.

Definition closing (text : string) : LiveResult :=
  {| transcript := text; is_final := true; speech_final := true |}.

(** A transcriber with a callback that returns. *)
Definition quiet_transcriber : DeepgramLive.DeepgramLiveTranscriber :=
  {| DeepgramLive.transcript_collector := DeepgramLive.new;
     DeepgramLive.callback := Some Samples.quiet_callback;
     DeepgramLive.transcription_complete := Some false |}.

(** An environment with a key, and one with an empty key. *)
Definition env_with_key : gmap string string :=
  <["OPEN_AI_TOKEN" := "sk-test"]> ∅.
Definition env_empty_key : gmap string string :=
  <["OPEN_AI_TOKEN" := ""]> ∅.

End Fixtures.

(** * Properties *)

(** ** String lemmas *)

Lemma append_cons (c : ascii) (s t : string) :
  String c s +:+ t = String c (s +:+ t).
Proof. reflexivity. Qed.

Lemma append_empty_r (s : string) : s +:+ "" = s.
Proof.
  induction s as [|c s IH]; [reflexivity|].
  rewrite append_cons. f_equal. exact IH.
Qed.

Lemma append_assoc (a b c : string) : (a +:+ b) +:+ c = a +:+ (b +:+ c).
Proof.
  induction a as [|x a IH]; [reflexivity|].
  rewrite !append_cons. f_equal. exact IH.
Qed.

Lemma lstrip_blanks_blank (s : string) :
  lstrip_blanks (" " +:+ s) = lstrip_blanks s.
Proof. reflexivity. Qed.

Section Spaced.
Context {A : Type} (f : A -> string).

(** The accumulated line of a run: each item preceded by one blank. *)
Lemma concat_spaced (l : list A) :
  String.concat "" (map (fun a => " " +:+ f a) l)
  = match l with [] => "" | _ => " " +:+ join " " (map f l) end.
Proof.
  induction l as [|x l IH]; [reflexivity|].
  destruct l as [|y l]; [reflexivity|].
  change (String.concat "" (map (fun a => " " +:+ f a) (x :: y :: l)))
    with ((" " +:+ f x) +:+
          ("" +:+ String.concat "" (map (fun a => " " +:+ f a) (y :: l)))).
  rewrite IH. reflexivity.
Qed.

Lemma concat_spaced_snoc (l : list A) (x : A) :
  String.concat "" (map (fun a => " " +:+ f a) (l ++ [x]))
  = String.concat "" (map (fun a => " " +:+ f a) l) +:+ (" " +:+ f x).
Proof.
  induction l as [|y l IH]; [reflexivity|].
  destruct l as [|z l]; [reflexivity|].
  change (String.concat "" (map (fun a => " " +:+ f a) ((y :: z :: l) ++ [x])))
    with ((" " +:+ f y) +:+
          ("" +:+ String.concat "" (map (fun a => " " +:+ f a) ((z :: l) ++ [x])))).
  rewrite IH.
  change (String.concat "" (map (fun a => " " +:+ f a) (y :: z :: l)))
    with ((" " +:+ f y) +:+
          ("" +:+ String.concat "" (map (fun a => " " +:+ f a) (z :: l)))).
  change ("" +:+ ?a) with a.
  rewrite <- append_assoc. reflexivity.
Qed.
End Spaced.

(** ** The segmenter *)

Lemma word_dict_speaker (w : Word) :
  getitem (word_dict w) "speaker" = Ok (VInt (Z.of_nat (speaker w))).
Proof. unfold getitem, word_dict. now rewrite lookup_insert_eq. Qed.

Lemma word_dict_text (w : Word) :
  getitem (word_dict w) "punctuated_word" = Ok (VStr (text w)).
Proof.
  unfold getitem, word_dict.
  rewrite lookup_insert_ne by discriminate.
  now rewrite lookup_insert_eq.
Qed.

(** On well-formed words one iteration of the source loop is one iteration
    of [segment_loop]. *)
Lemma loop_body_word (closed : list Turn) (cs : nat) (cl : string) (w : Word) :
  Transcript.loop_body
    {| Transcript.lines := map render_closed closed;
       Transcript.curr_speaker := VInt (Z.of_nat cs);
       Transcript.curr_line := cl |} (word_dict w)
  = if decide (speaker w = cs) then
      Ok {| Transcript.lines := map render_closed closed;
            Transcript.curr_speaker := VInt (Z.of_nat cs);
            Transcript.curr_line := cl +:+ (" " +:+ text w) |}
    else
      Ok {| Transcript.lines :=
              map render_closed
                (closed ++ [{| turn_speaker := cs; turn_text := cl |}]);
            Transcript.curr_speaker := VInt (Z.of_nat (speaker w));
            Transcript.curr_line := " " +:+ text w |}.
Proof.
  unfold Transcript.loop_body.
  rewrite word_dict_speaker, word_dict_text. cbn [mbind result_bind].
  cbn [Transcript.curr_speaker Transcript.curr_line Transcript.lines].
  destruct (decide (speaker w = cs)) as [Heq|Hne].
  - subst cs. rewrite decide_True by reflexivity. reflexivity.
  - rewrite decide_False by (intros H; apply Hne; injection H; lia).
    cbn [str_add mbind result_bind mret result_ret].
    rewrite map_app. reflexivity.
Qed.

Lemma run_loop_segment (ws : list Word) :
  forall (closed : list Turn) (cs : nat) (cl : string),
    Transcript.run_loop
      {| Transcript.lines := map render_closed closed;
         Transcript.curr_speaker := VInt (Z.of_nat cs);
         Transcript.curr_line := cl |} (map word_dict ws)
    = Ok {| Transcript.lines :=
              map render_closed (fst (segment_loop closed cs cl ws));
            Transcript.curr_speaker :=
              VInt (Z.of_nat (turn_speaker (snd (segment_loop closed cs cl ws))));
            Transcript.curr_line :=
              turn_text (snd (segment_loop closed cs cl ws)) |}.
Proof.
  induction ws as [|w ws IH]; intros closed cs cl; [reflexivity|].
  cbn [map Transcript.run_loop segment_loop].
  rewrite loop_body_word.
  destruct (decide (speaker w = cs)); cbn [mbind result_bind]; apply IH.
Qed.

Lemma render_lines_snoc (closed : list Turn) (last : Turn) :
  render_lines (closed ++ [last]) = map render_closed closed ++ [render_last last].
Proof.
  induction closed as [|t closed IH]; [reflexivity|].
  cbn [app map]. rewrite <- IH.
  destruct closed; reflexivity.
Qed.

Lemma segment_unfold (ws : list Word) :
  segment ws = fst (segment_loop [] 0 "" ws) ++ [snd (segment_loop [] 0 "" ws)].
Proof. unfold segment. destruct (segment_loop [] 0 "" ws); reflexivity. Qed.

(** The string both copies of [create_transcript] return is the rendering
    of the turns of [segment]. *)
Lemma transcript_of_words_segment (ws : list Word) :
  Transcript.transcript_of_words (map word_dict ws)
  = Ok (render_turns (segment ws)).
Proof.
  unfold Transcript.transcript_of_words, Transcript.init_state.
  change (Transcript.run_loop _ (map word_dict ws))
    with (Transcript.run_loop
            {| Transcript.lines := map render_closed [];
               Transcript.curr_speaker := VInt (Z.of_nat 0);
               Transcript.curr_line := "" |} (map word_dict ws)).
  rewrite (run_loop_segment ws [] 0 "").
  cbn [mbind result_bind mret result_ret].
  cbn [Transcript.curr_speaker Transcript.curr_line Transcript.lines].
  unfold render_turns. rewrite segment_unfold, render_lines_snoc.
  reflexivity.
Qed.

Lemma turn_of_run_intro (cs : nat) (cl : string) (g : list Word) :
  Forall (fun w => speaker w = cs) g ->
  cl = String.concat "" (map (fun w => " " +:+ text w) g) ->
  turn_of_run {| turn_speaker := cs; turn_text := cl |} g.
Proof.
  intros Hsp Htx. unfold turn_of_run. cbn [turn_speaker turn_text].
  split; [exact Hsp|]. split; [exact Htx|].
  rewrite Htx, concat_spaced.
  destruct g; reflexivity.
Qed.

Lemma segment_loop_runs (ws : list Word) :
  forall (closed : list Turn) (cs : nat) (cl : string)
         (gs : list (list Word)) (g : list Word),
    Forall2 turn_of_run closed gs ->
    Forall (fun w => speaker w = cs) g ->
    cl = String.concat "" (map (fun w => " " +:+ text w) g) ->
    exists groups,
      List.concat groups = List.concat gs ++ g ++ ws
      /\ Forall2 turn_of_run
           (fst (segment_loop closed cs cl ws) ++ [snd (segment_loop closed cs cl ws)])
           groups.
Proof.
  induction ws as [|w ws IH]; intros closed cs cl gs g Hclosed Hg Hcl.
  - exists (gs ++ [g]). cbn [segment_loop fst snd]. split.
    + rewrite concat_app. cbn [List.concat]. now rewrite !app_nil_r.
    + apply Forall2_app; [exact Hclosed|].
      constructor; [|constructor]. now apply turn_of_run_intro.
  - cbn [segment_loop]. destruct (decide (speaker w = cs)) as [Heq|Hne].
    + destruct (IH closed cs (cl +:+ (" " +:+ text w)) gs (g ++ [w]))
        as (groups & Hcat & Hall).
      * exact Hclosed.
      * apply Forall_app. split; [exact Hg|]. now constructor.
      * now rewrite Hcl, concat_spaced_snoc.
      * exists groups. split; [|exact Hall].
        rewrite Hcat, <- !app_assoc. reflexivity.
    + destruct (IH (closed ++ [{| turn_speaker := cs; turn_text := cl |}])
                  (speaker w) (" " +:+ text w) (gs ++ [g]) [w])
        as (groups & Hcat & Hall).
      * apply Forall2_app; [exact Hclosed|].
        constructor; [|constructor]. now apply turn_of_run_intro.
      * now constructor.
      * reflexivity.
      * exists groups. split; [|exact Hall].
        rewrite Hcat, concat_app. cbn [List.concat].
        rewrite app_nil_r, <- !app_assoc. reflexivity.
Qed.

(** C1: for every word sequence the turns of [segment] stand, in order, for
    runs of words that concatenate back to the input; each turn's words all
    have the turn's speaker and its text, leading blanks ignored, is the
    run's words joined by single blanks.  The string [create_transcript]
    returns is the rendering of these turns, and on the words
    (0,Hi) (0,there) (1,Hello) (0,Bye) the turns, leading blanks ignored,
    are (0,Hi there) (1,Hello) (0,Bye). *)
Theorem segment_reconstructs_words :
  (forall ws : list Word,
      exists groups : list (list Word),
        List.concat groups = ws /\ Forall2 turn_of_run (segment ws) groups)
  /\ (forall ws : list Word,
         Transcript.transcript_of_words (map word_dict ws)
         = Ok (render_turns (segment ws)))
  /\ map trim_turn (segment Samples.words_hi) = Samples.turns_hi.
Proof.
  split; [|split].
  - intros ws. rewrite segment_unfold.
    destruct (segment_loop_runs ws [] 0 "" [] []) as (groups & Hcat & Hall);
      [constructor | constructor | reflexivity |].
    exists groups. split; [exact Hcat | exact Hall].
  - exact transcript_of_words_segment.
  - reflexivity.
Qed.

Lemma collapse_runs_head (l : list nat) (x : nat) :
  exists t, collapse_runs (x :: l) = x :: t.
Proof.
  revert x. induction l as [|y l IH]; intros x.
  - exists []. reflexivity.
  - cbn [collapse_runs]. destruct (decide (x = y)) as [->|Hne].
    + apply (IH y).
    + eexists. reflexivity.
Qed.

Lemma collapse_runs_adjacent_distinct (l : list nat) :
  adjacent_distinct (collapse_runs l).
Proof.
  induction l as [|x l IH]; [exact I|].
  destruct l as [|y l]; [exact I|].
  change (collapse_runs (x :: y :: l))
    with (if decide (x = y) then collapse_runs (y :: l)
          else x :: collapse_runs (y :: l)).
  destruct (decide (x = y)) as [->|Hne]; [exact IH|].
  destruct (collapse_runs_head l y) as [t Ht].
  rewrite Ht in IH |- *. split; [exact Hne | exact IH].
Qed.

Lemma segment_loop_speakers (ws : list Word) :
  forall (closed : list Turn) (cs : nat) (cl : string),
    map turn_speaker
      (fst (segment_loop closed cs cl ws) ++ [snd (segment_loop closed cs cl ws)])
    = map turn_speaker closed ++ collapse_runs (cs :: map speaker ws).
Proof.
  induction ws as [|w ws IH]; intros closed cs cl.
  - cbn [segment_loop fst snd]. now rewrite map_app.
  - cbn [segment_loop].
    change (collapse_runs (cs :: map speaker (w :: ws)))
      with (if decide (cs = speaker w) then collapse_runs (speaker w :: map speaker ws)
            else cs :: collapse_runs (speaker w :: map speaker ws)).
    destruct (decide (speaker w = cs)) as [Heq|Hne].
    + rewrite decide_True by congruence. rewrite IH, Heq. reflexivity.
    + rewrite decide_False by congruence. rewrite IH, map_app.
      rewrite <- app_assoc. reflexivity.
Qed.

Lemma segment_speakers (ws : list Word) :
  map turn_speaker (segment ws) = collapse_runs (0 :: map speaker ws).
Proof. rewrite segment_unfold. exact (segment_loop_speakers ws [] 0 ""). Qed.

(** A first word of a speaker other than 0 closes the initial, still empty,
    turn of speaker 0. *)
Lemma segment_leading_empty_turn (s : nat) (t : string) (rest : list Word) :
  exists more,
    segment ({| speaker := S s; text := t |} :: rest)
    = {| turn_speaker := 0; turn_text := "" |} :: more.
Proof.
  rewrite segment_unfold. cbn [segment_loop speaker text].
  rewrite decide_False by discriminate. cbn [app].
  generalize (" " +:+ t). generalize (S s).
  generalize ({| turn_speaker := 0; turn_text := "" |}).
  intros t0 cs cl. clear s t.
  assert (H : forall ws closed cs cl,
             exists more,
               fst (segment_loop (t0 :: closed) cs cl ws)
                 ++ [snd (segment_loop (t0 :: closed) cs cl ws)] = t0 :: more).
  { induction ws as [|w ws IH]; intros closed cs' cl'.
    - eexists. reflexivity.
    - cbn [segment_loop]. destruct (decide (speaker w = cs')).
      + apply IH.
      + apply (IH (closed ++ [_])). }
  apply (H rest []).
Qed.

(** C2, the claim as worded: the first turn emitted for the single word
    (1,Hello) would be that word's turn.  The code starts from speaker 0
    and first emits an empty turn for speaker 0. *)
Lemma segment_not_first_speaker_init :
  segment Samples.words_one
  = [ {| turn_speaker := 0; turn_text := "" |};
      {| turn_speaker := 1; turn_text := " Hello" |} ]
  /\ segment_first_speaker_init Samples.words_one
     = [ {| turn_speaker := 1; turn_text := " Hello" |} ]
  /\ segment Samples.words_one <> segment_first_speaker_init Samples.words_one.
Proof. split; [reflexivity|]. split; [reflexivity|]. discriminate. Qed.

(** C2, amended: [segment] starts with current speaker 0 whatever the
    first word, so its first turn always belongs to speaker 0 and is the
    empty turn when the first word has another speaker; the speakers of
    the turns are those of 0 followed by the words, each run collapsed, in
    order; no two adjacent turns share a speaker; the empty input yields
    exactly one empty turn for speaker 0. *)
Theorem segment_starts_at_speaker_zero :
  (forall ws : list Word, turn_speaker <$> head (segment ws) = Some 0)
  /\ (forall ws : list Word,
         map turn_speaker (segment ws) = collapse_runs (0 :: map speaker ws))
  /\ (forall ws : list Word, adjacent_distinct (map turn_speaker (segment ws)))
  /\ (forall (s : nat) (t : string) (rest : list Word),
         head (segment ({| speaker := S s; text := t |} :: rest))
         = Some {| turn_speaker := 0; turn_text := "" |})
  /\ segment [] = [ {| turn_speaker := 0; turn_text := "" |} ].
Proof.
  split; [|split; [|split; [|split]]].
  - intros ws. pose proof (segment_speakers ws) as H.
    destruct (collapse_runs_head (map speaker ws) 0) as [t Ht].
    rewrite Ht in H. destruct (segment ws) as [|t0 ts]; [discriminate|].
    injection H as H0 _. cbn. now rewrite H0.
  - exact segment_speakers.
  - intros ws. rewrite segment_speakers. apply collapse_runs_adjacent_distinct.
  - intros s t rest. destruct (segment_leading_empty_turn s t rest) as [more H].
    now rewrite H.
  - reflexivity.
Qed.

(** ** Malformed word records *)

Lemma loop_body_lacks_field (st : Transcript.loop_state) (w : gmap string value) :
  lacks_field w ->
  Transcript.loop_body st w = Raise (KeyError (missing_key w)).
Proof.
  intros Hlack. unfold Transcript.loop_body, getitem, missing_key.
  destruct (w !! "speaker") as [sp|] eqn:Hsp; [|reflexivity].
  destruct Hlack as [H|H]; [congruence|].
  rewrite H. reflexivity.
Qed.

Lemma loop_body_well_formed (st : Transcript.loop_state) (w : gmap string value) :
  well_formed w -> exists st', Transcript.loop_body st w = Ok st'.
Proof.
  intros [[sp Hsp] [s Hs]]. unfold Transcript.loop_body, getitem.
  rewrite Hsp, Hs. cbn [mbind result_bind].
  destruct (decide (sp = Transcript.curr_speaker st)); eexists; reflexivity.
Qed.

Lemma run_loop_well_formed (pre : list (gmap string value)) :
  forall st, Forall well_formed pre ->
             exists st', Transcript.run_loop st pre = Ok st'.
Proof.
  induction pre as [|w pre IH]; intros st Hall.
  - eexists. reflexivity.
  - inversion Hall as [|? ? Hw Hpre]; subst.
    destruct (loop_body_well_formed st w Hw) as [st1 H1].
    cbn [Transcript.run_loop]. rewrite H1. cbn [mbind result_bind].
    apply IH, Hpre.
Qed.

Lemma run_loop_app (pre post : list (gmap string value)) :
  forall st st', Transcript.run_loop st pre = Ok st' ->
                 Transcript.run_loop st (pre ++ post) = Transcript.run_loop st' post.
Proof.
  induction pre as [|w pre IH]; intros st st' H.
  - change (Ok st = Ok st') in H. injection H as H. subst st'. reflexivity.
  - cbn [Transcript.run_loop app] in *.
    destruct (Transcript.loop_body st w) as [st1|e]; cbn [mbind result_bind] in *.
    + now apply IH.
    + discriminate.
Qed.

Lemma run_loop_never_skips (ws : list (gmap string value)) :
  forall st, Exists lacks_field ws -> exists e, Transcript.run_loop st ws = Raise e.
Proof.
  induction ws as [|w ws IH]; intros st Hex.
  - inversion Hex.
  - cbn [Transcript.run_loop].
    destruct (Transcript.loop_body st w) as [st1|e] eqn:Hbody;
      cbn [mbind result_bind].
    + inversion Hex as [? ? Hw|? ? Hws]; subst.
      * rewrite (loop_body_lacks_field st w Hw) in Hbody. discriminate.
      * apply IH, Hws.
    + eexists. reflexivity.
Qed.

Lemma transcript_of_words_raise (ws : list (gmap string value)) (e : exn) :
  Transcript.run_loop Transcript.init_state ws = Raise e ->
  Transcript.transcript_of_words ws = Raise e
  /\ Utils.create_transcript ws
     = (["Error creating transcript: " +:+ str_exn e], Raise e)
  /\ App.create_transcript (Some ws) = Raise e.
Proof.
  intros H. unfold Utils.create_transcript, App.create_transcript.
  unfold Transcript.transcript_of_words. rewrite H. repeat split.
Qed.

Lemma good_word_well_formed : well_formed Samples.good_word.
Proof. split; eexists; vm_compute; reflexivity. Qed.

Lemma no_speaker_lacks_field : lacks_field Samples.no_speaker.
Proof. left. vm_compute. reflexivity. Qed.

(** C9, the claim as worded: a record without its speaker raises the same
    [KeyError] whether it is the first or the second record, so no reading
    of the error gives the index of the offending record. *)
Lemma key_error_names_no_index :
  Transcript.transcript_of_words [Samples.no_speaker] = Raise (KeyError "speaker")
  /\ Transcript.transcript_of_words [Samples.good_word; Samples.no_speaker]
     = Raise (KeyError "speaker")
  /\ ~ (exists index_of : exn -> nat, names_offending_index index_of).
Proof.
  split; [vm_compute; reflexivity|]. split; [vm_compute; reflexivity|].
  intros [index_of H].
  destruct (H [] [] Samples.no_speaker) as (e0 & He0 & Hi0);
    [constructor | exact no_speaker_lacks_field |].
  destruct (H [Samples.good_word] [] Samples.no_speaker) as (e1 & He1 & Hi1);
    [constructor; [exact good_word_well_formed | constructor]
    | exact no_speaker_lacks_field |].
  assert (E0 : Transcript.transcript_of_words ([] ++ [Samples.no_speaker])
               = Raise (KeyError "speaker")) by (vm_compute; reflexivity).
  assert (E1 : Transcript.transcript_of_words
                 ([Samples.good_word] ++ [Samples.no_speaker])
               = Raise (KeyError "speaker")) by (vm_compute; reflexivity).
  rewrite E0 in He0. rewrite E1 in He1.
  injection He0 as <-. injection He1 as <-.
  cbn in Hi0, Hi1. congruence.
Qed.

(** C9, amended: when a record lacks the speaker or the text field and the
    records before it are well formed, [create_transcript] fails with the
    [KeyError] of the missing key ([speaker] when that is missing, else
    [punctuated_word]); the error carries the key and no index.  The copy
    in src/utils.py logs the error and raises it again, the copy in
    src/app.py lets it propagate.  Whatever precedes the record, the call
    fails: the record is never skipped. *)
Theorem malformed_record_raises_key_error
  (pre post : list (gmap string value)) (w : gmap string value) :
  Forall well_formed pre ->
  lacks_field w ->
  Transcript.transcript_of_words (pre ++ w :: post)
    = Raise (KeyError (missing_key w))
  /\ Utils.create_transcript (pre ++ w :: post)
     = (["Error creating transcript: '" +:+ missing_key w +:+ "'"],
        Raise (KeyError (missing_key w)))
  /\ App.create_transcript (Some (pre ++ w :: post))
     = Raise (KeyError (missing_key w))
  /\ (forall before : list (gmap string value),
         exists e, Transcript.transcript_of_words (before ++ w :: post) = Raise e).
Proof.
  intros Hpre Hw.
  assert (Hrun : Transcript.run_loop Transcript.init_state (pre ++ w :: post)
                 = Raise (KeyError (missing_key w))).
  { destruct (run_loop_well_formed pre Transcript.init_state Hpre) as [st Hst].
    rewrite (run_loop_app pre (w :: post) _ _ Hst).
    cbn [Transcript.run_loop]. rewrite (loop_body_lacks_field st w Hw).
    reflexivity. }
  destruct (transcript_of_words_raise _ _ Hrun) as (H1 & H2 & H3).
  split; [exact H1|]. split; [exact H2|]. split; [exact H3|].
  intros before.
  destruct (run_loop_never_skips (before ++ w :: post) Transcript.init_state)
    as [e He].
  { apply Exists_app. right. now constructor. }
  exists e. unfold Transcript.transcript_of_words. now rewrite He.
Qed.

Lemma malformed_record_raises_key_error_witness :
  Transcript.transcript_of_words [Samples.good_word; Samples.no_speaker]
    = Raise (KeyError "speaker")
  /\ Utils.create_transcript [Samples.good_word; Samples.no_speaker]
     = (["Error creating transcript: 'speaker'"], Raise (KeyError "speaker")).
Proof.
  destruct (malformed_record_raises_key_error
              [Samples.good_word] [] Samples.no_speaker) as (H1 & H2 & _).
  - constructor; [|constructor]. split; eexists; vm_compute; reflexivity.
  - left. vm_compute. reflexivity.
  - split; [exact H1 | exact H2].
Defined.

(** ** Blank strings *)

Lemma all_space_lstrip (s : string) : all_space (lstrip s) = all_space s.
Proof.
  induction s as [|c s IH]; [reflexivity|].
  cbn [lstrip all_space]. destruct (is_space c) eqn:Hc.
  - exact IH.
  - cbn [all_space]. now rewrite Hc.
Qed.

Lemma truthy_rstrip (s : string) : truthy (rstrip s) = negb (all_space s).
Proof.
  induction s as [|c s IH]; [reflexivity|].
  cbn [rstrip all_space]. destruct (rstrip s) as [|c' r].
  - cbn [truthy] in IH. destruct (all_space s); [|discriminate].
    rewrite andb_true_r. destruct (is_space c); reflexivity.
  - cbn [truthy] in IH |- *. destruct (all_space s); [discriminate|].
    now rewrite andb_false_r.
Qed.

(** [s.strip()] is non-empty exactly when [s] has a character that is not
    white space. *)
Lemma truthy_strip (s : string) : truthy (strip s) = negb (all_space s).
Proof. unfold strip. now rewrite truthy_rstrip, all_space_lstrip. Qed.

Lemma all_space_app (a b : string) :
  all_space (a +:+ b) = all_space a && all_space b.
Proof.
  induction a as [|c a IH]; [reflexivity|].
  rewrite append_cons. cbn [all_space]. now rewrite IH, andb_assoc.
Qed.

Lemma join_cons_cons (sep x y : string) (l : list string) :
  join sep (x :: y :: l) = x +:+ sep +:+ join sep (y :: l).
Proof. reflexivity. Qed.

Lemma all_space_join_snoc (l : list string) (s : string) :
  all_space s = false -> all_space (join " " (l ++ [s])) = false.
Proof.
  intros Hs. induction l as [|x l IH]; [exact Hs|].
  cbn [app]. destruct (l ++ [s]) as [|y r] eqn:E.
  - destruct l; discriminate.
  - rewrite join_cons_cons, !all_space_app, IH. now rewrite !andb_false_r.
Qed.

(** A full sentence that ends with a non-blank part is not blank. *)
Lemma truthy_strip_join_snoc (l : list string) (s : string) :
  truthy (strip s) = true -> truthy (strip (join " " (l ++ [s]))) = true.
Proof.
  rewrite !truthy_strip. intros H.
  rewrite all_space_join_snoc; [reflexivity|].
  now destruct (all_space s).
Qed.

(** ** The collector *)

(** C5, the claim as worded: the [add_part] of src/deepgram_live.py appends
    blank text too, and the transcript read right after differs. *)
Lemma deepgram_add_part_appends_blank :
  let c := {| DeepgramLive.transcript_parts := ["Hello"] |} in
  DeepgramLive.transcript_parts (DeepgramLive.add_part c "") = ["Hello"; ""]
  /\ DeepgramLive.get_full_transcript (DeepgramLive.add_part c "") = "Hello "
  /\ DeepgramLive.get_full_transcript c = "Hello"
  /\ DeepgramLive.get_full_transcript (DeepgramLive.add_part c "   ")
     <> DeepgramLive.get_full_transcript c.
Proof. repeat split. discriminate. Qed.

(** C5, amended: the [add_part] of live_speech.py appends the text when it
    has a character that is not white space and changes nothing otherwise;
    the [add_part] of src/deepgram_live.py always appends, and there the
    blank check is made by [on_message], which leaves the transcriber
    untouched on a blank transcript.  Through either guarded path the empty
    string and three blanks do not change the transcript read afterwards. *)
Theorem add_part_guard :
  (forall (c : LiveSpeech.TranscriptCollector) (text : string),
      LiveSpeech.add_part c text
      = if all_space text then c
        else {| LiveSpeech.transcript_parts :=
                  LiveSpeech.transcript_parts c ++ [text] |})
  /\ (forall (c : DeepgramLive.TranscriptCollector) (text : string),
         DeepgramLive.transcript_parts (DeepgramLive.add_part c text)
         = DeepgramLive.transcript_parts c ++ [text])
  /\ (forall (self : DeepgramLive.DeepgramLiveTranscriber) (r : LiveResult),
         DeepgramLive.on_message self r
         = if all_space (transcript r) then (self, [])
           else DeepgramLive.on_message self r)
  /\ (forall c : LiveSpeech.TranscriptCollector,
         LiveSpeech.get_transcript (LiveSpeech.add_part c "")
         = LiveSpeech.get_transcript c
         /\ LiveSpeech.get_transcript (LiveSpeech.add_part c "   ")
            = LiveSpeech.get_transcript c)
  /\ (forall (self : DeepgramLive.DeepgramLiveTranscriber) (f sf : bool),
         DeepgramLive.on_message self
           {| transcript := ""; is_final := f; speech_final := sf |} = (self, [])
         /\ DeepgramLive.on_message self
              {| transcript := "   "; is_final := f; speech_final := sf |}
            = (self, [])).
Proof.
  split; [|split; [|split; [|split]]].
  - intros c text. unfold LiveSpeech.add_part. rewrite truthy_strip.
    destruct (all_space text); reflexivity.
  - reflexivity.
  - intros self r. destruct (all_space (transcript r)) eqn:Hb; [|reflexivity].
    unfold DeepgramLive.on_message. rewrite truthy_strip, Hb. reflexivity.
  - intros c. split; reflexivity.
  - intros self f sf. split; reflexivity.
Qed.

(** ** The live transcriber *)

(** What [on_message] does on a non-blank result with [speech_final] set,
    by the outcome of the callback. *)
Lemma on_message_speech_final
  (self : DeepgramLive.DeepgramLiveTranscriber) (r : LiveResult)
  (cb : string -> result unit) :
  DeepgramLive.callback self = Some cb ->
  truthy (strip (transcript r)) = true ->
  speech_final r = true ->
  let parts :=
    DeepgramLive.transcript_parts (DeepgramLive.transcript_collector self)
      ++ [transcript r] in
  let full := join " " parts in
  DeepgramLive.on_message self r
  = match cb full with
    | Raise e =>
        (DeepgramLive.set_collector self
           {| DeepgramLive.transcript_parts := parts |},
         [CallbackCalled full;
          Printed ("Error processing message: " +:+ str_exn e)])
    | Ok _ =>
        let '(self', effs) :=
          DeepgramLive.set_complete
            (DeepgramLive.set_collector self
               {| DeepgramLive.transcript_parts := [] |}) in
        (self', [CallbackCalled full; CollectorReset] ++ effs)
    end.
Proof.
  intros Hcb Hsent Hsf parts full.
  unfold DeepgramLive.on_message. rewrite Hsent, Hsf. cbn [negb].
  unfold DeepgramLive.emit.
  cbn [DeepgramLive.set_collector DeepgramLive.transcript_collector
       DeepgramLive.callback].
  change (DeepgramLive.get_full_transcript
            (DeepgramLive.add_part (DeepgramLive.transcript_collector self)
               (transcript r))) with full.
  assert (Hfull : truthy (strip full) = true)
    by (apply truthy_strip_join_snoc; exact Hsent).
  rewrite Hfull, Hcb.
  destruct (cb full) as [u|e]; reflexivity.
Qed.

(** The text the callback receives in the live scenario. *)
Lemma live_scenario_text (cb : string -> result unit) :
  callback_calls
    (DeepgramLive.effects
       (DeepgramLive.process_audio DeepgramLive.init cb Samples.live_events))
  = ["Hel Hello  world"].
Proof.
  vm_compute. destruct (cb "Hel Hello  world") as [u|e]; reflexivity.
Qed.

(** C3, the claim as worded: in the live scenario the text handed to the
    callback is not the claimed one. *)
Lemma live_scenario_not_hello_world :
  callback_calls
    (DeepgramLive.effects
       (DeepgramLive.process_audio DeepgramLive.init Samples.quiet_callback
          Samples.live_events))
  <> ["Hello world"].
Proof. rewrite live_scenario_text. discriminate. Qed.

(** C3, amended: in the live scenario the registered callback, whatever it
    does, is invoked exactly once, and the text it receives ends with the
    two settled fragments joined by the single blank of [' '.join] with the
    leading blank of the last fragment kept: Hello, two blanks, world. *)
Theorem live_scenario_single_callback (cb : string -> result unit) :
  exists prefix : string,
    callback_calls
      (DeepgramLive.effects
         (DeepgramLive.process_audio DeepgramLive.init cb Samples.live_events))
    = [prefix +:+ "Hello  world"].
Proof. exists "Hel ". apply live_scenario_text. Qed.

(** What [on_message] does on a non-blank result with [speech_final] set
    when no callback is registered. *)
Lemma on_message_speech_final_no_callback
  (self : DeepgramLive.DeepgramLiveTranscriber) (r : LiveResult) :
  DeepgramLive.callback self = None ->
  truthy (strip (transcript r)) = true ->
  speech_final r = true ->
  DeepgramLive.on_message self r
  = (fst (DeepgramLive.set_complete
            (DeepgramLive.set_collector self
               {| DeepgramLive.transcript_parts := [] |})),
     CollectorReset
       :: snd (DeepgramLive.set_complete
                 (DeepgramLive.set_collector self
                    {| DeepgramLive.transcript_parts := [] |}))).
Proof.
  intros Hcb Hsent Hsf.
  unfold DeepgramLive.on_message. rewrite Hsent, Hsf. cbn [negb].
  unfold DeepgramLive.emit.
  cbn [DeepgramLive.set_collector DeepgramLive.transcript_collector
       DeepgramLive.callback].
  rewrite Hcb.
  destruct (truthy (strip (DeepgramLive.get_full_transcript _)));
    unfold DeepgramLive.set_complete;
    cbn [DeepgramLive.set_collector DeepgramLive.transcription_complete];
    destruct (DeepgramLive.transcription_complete self); reflexivity.
Qed.

Lemma add_parts_in_order (parts : list string) :
  forall c : DeepgramLive.TranscriptCollector,
    DeepgramLive.get_full_transcript (fold_left DeepgramLive.add_part parts c)
    = join " " (DeepgramLive.transcript_parts c ++ parts).
Proof.
  induction parts as [|p parts IH]; intros c.
  - cbn [fold_left]. now rewrite app_nil_r.
  - cbn [fold_left]. rewrite IH. unfold DeepgramLive.add_part.
    cbn [DeepgramLive.transcript_parts]. now rewrite <- app_assoc.
Qed.

(** C4, the claim as worded: the finalize step of [on_message] does not
    always clear the parts.  With a callback that raises, the collector
    still holds the utterance after the step, the transcript read right
    after is not empty, and the next finalize step hands out the old
    parts again. *)
Lemma finalize_step_can_leave_parts :
  DeepgramLive.get_full_transcript
    (DeepgramLive.transcript_collector
       (fst (DeepgramLive.on_message Samples.failing_transcriber
               Samples.final_hello)))
  = "Hello"
  /\ callback_calls
       (snd (DeepgramLive.on_message
               (fst (DeepgramLive.on_message Samples.failing_transcriber
                       Samples.final_hello))
               Samples.final_again))
     = ["Hello again"].
Proof. split; vm_compute; reflexivity. Qed.

(** C4, amended: the finalize step of [on_message], run by a non-blank
    result with [speech_final] set, hands the registered callback the
    collector's parts and the new transcript joined by single blanks in
    the order they were added, and then clears the parts when the callback
    returns, after which the transcript reads as the empty string; when
    the callback raises the parts are all kept; with no callback
    registered nothing is handed out and the parts are cleared.
    On the collector itself, [get_full_transcript] is the single-blank
    join of the parts in the order [add_part] received them and clears
    nothing, and after [reset] it is the empty string. *)
Theorem finalize_step_joins_then_clears
  (self : DeepgramLive.DeepgramLiveTranscriber) (r : LiveResult) :
  truthy (strip (transcript r)) = true ->
  speech_final r = true ->
  let parts :=
    DeepgramLive.transcript_parts (DeepgramLive.transcript_collector self)
      ++ [transcript r] in
  let full := join " " parts in
  let after :=
    DeepgramLive.transcript_collector (fst (DeepgramLive.on_message self r)) in
  let calls := callback_calls (snd (DeepgramLive.on_message self r)) in
  match DeepgramLive.callback self with
  | Some cb =>
      calls = [full]
      /\ match cb full with
         | Ok _ =>
             DeepgramLive.transcript_parts after = []
             /\ DeepgramLive.get_full_transcript after = ""
         | Raise _ => DeepgramLive.transcript_parts after = parts
         end
  | None =>
      calls = []
      /\ DeepgramLive.transcript_parts after = []
      /\ DeepgramLive.get_full_transcript after = ""
  end
  /\ (forall (c : DeepgramLive.TranscriptCollector) (added : list string),
         DeepgramLive.get_full_transcript
           (fold_left DeepgramLive.add_part added c)
         = join " " (DeepgramLive.transcript_parts c ++ added))
  /\ (forall c : DeepgramLive.TranscriptCollector,
         DeepgramLive.get_full_transcript c
         = join " " (DeepgramLive.transcript_parts c)
         /\ DeepgramLive.get_full_transcript (DeepgramLive.reset c) = "").
Proof.
  intros Hsent Hsf parts full after calls. subst after calls.
  split; [|split; [intros c added; apply add_parts_in_order
                  | intros c; split; reflexivity]].
  destruct (DeepgramLive.callback self) as [cb|] eqn:Hcb.
  - pose proof (on_message_speech_final self r cb Hcb Hsent Hsf) as H.
    cbv zeta in H. fold parts in H. fold full in H. rewrite H.
    destruct (cb full) as [u|e].
    + unfold DeepgramLive.set_complete.
      cbn [DeepgramLive.set_collector DeepgramLive.transcription_complete].
      destruct (DeepgramLive.transcription_complete self); repeat split.
    + repeat split.
  - rewrite (on_message_speech_final_no_callback self r Hcb Hsent Hsf).
    unfold DeepgramLive.set_complete.
    cbn [DeepgramLive.set_collector DeepgramLive.transcription_complete].
    destruct (DeepgramLive.transcription_complete self); repeat split.
Qed.

Lemma finalize_step_joins_then_clears_witness :
  callback_calls
    (snd (DeepgramLive.on_message Samples.failing_transcriber
            Samples.final_hello))
  = ["Hello"]
  /\ DeepgramLive.transcript_parts
       (DeepgramLive.transcript_collector
          (fst (DeepgramLive.on_message Samples.failing_transcriber
                  Samples.final_hello)))
     = ["Hello"].
Proof.
  destruct (finalize_step_joins_then_clears Samples.failing_transcriber
              Samples.final_hello) as (H & _).
  - vm_compute. reflexivity.
  - reflexivity.
  - exact H.
Defined.

(** C6, the claim as worded: with a callback that raises, the finalize
    event leaves the collector holding its parts; the callback was invoked
    first and the reset never happened. *)
Lemma failing_callback_skips_reset :
  DeepgramLive.on_message Samples.failing_transcriber Samples.final_hello
  = (DeepgramLive.set_collector Samples.failing_transcriber
       {| DeepgramLive.transcript_parts := ["Hello"] |},
     [CallbackCalled "Hello"; Printed "Error processing message: boom"])
  /\ DeepgramLive.transcript_parts
       (DeepgramLive.transcript_collector
          (fst (DeepgramLive.on_message Samples.failing_transcriber
                  Samples.final_hello)))
     <> [].
Proof. split; [vm_compute; reflexivity | vm_compute; discriminate]. Qed.

(** C6, amended: on a non-blank result with [speech_final] set, the
    registered callback is invoked with the full sentence before the
    collector is reset.  When the callback raises, the exception is
    printed, the reset is skipped and the collector keeps every part,
    the new one included; when it returns, the collector is reset after
    the call. *)
Theorem callback_runs_before_reset
  (self : DeepgramLive.DeepgramLiveTranscriber) (r : LiveResult)
  (cb : string -> result unit) :
  DeepgramLive.callback self = Some cb ->
  truthy (strip (transcript r)) = true ->
  speech_final r = true ->
  let parts :=
    DeepgramLive.transcript_parts (DeepgramLive.transcript_collector self)
      ++ [transcript r] in
  let full := join " " parts in
  (forall e, cb full = Raise e ->
      DeepgramLive.on_message self r
      = (DeepgramLive.set_collector self
           {| DeepgramLive.transcript_parts := parts |},
         [CallbackCalled full;
          Printed ("Error processing message: " +:+ str_exn e)]))
  /\ (cb full = Ok tt ->
      DeepgramLive.transcript_parts
        (DeepgramLive.transcript_collector (fst (DeepgramLive.on_message self r)))
      = []
      /\ exists effs,
           snd (DeepgramLive.on_message self r)
           = CallbackCalled full :: CollectorReset :: effs).
Proof.
  intros Hcb Hsent Hsf parts full.
  pose proof (on_message_speech_final self r cb Hcb Hsent Hsf) as H.
  cbv zeta in H. fold parts in H. fold full in H. split.
  - intros e He. rewrite H, He. reflexivity.
  - intros Hok. rewrite H, Hok. unfold DeepgramLive.set_complete.
    cbn [DeepgramLive.set_collector DeepgramLive.transcription_complete].
    destruct (DeepgramLive.transcription_complete self);
      (split; [reflexivity | eexists; reflexivity]).
Qed.

Lemma callback_runs_before_reset_witness :
  DeepgramLive.on_message Samples.failing_transcriber Samples.final_hello
  = (DeepgramLive.set_collector Samples.failing_transcriber
       {| DeepgramLive.transcript_parts := ["Hello"] |},
     [CallbackCalled "Hello"; Printed "Error processing message: boom"]).
Proof.
  destruct (callback_runs_before_reset Samples.failing_transcriber
              Samples.final_hello Samples.failing_callback) as [H _].
  - reflexivity.
  - vm_compute. reflexivity.
  - reflexivity.
  - apply (H (Exception "boom")). reflexivity.
Defined.

Lemma wait_complete_set (self : DeepgramLive.DeepgramLiveTranscriber)
  (effs : list effect) (events : list DeepgramLive.stream_event) :
  DeepgramLive.transcription_complete self = Some true ->
  DeepgramLive.wait_complete self effs events
  = {| DeepgramLive.transcriber := self;
       DeepgramLive.effects := effs ++ [AudioStopped; ConnectionFinished];
       DeepgramLive.finished := true;
       DeepgramLive.undelivered := events |}.
Proof.
  intros H. destruct events; cbn [DeepgramLive.wait_complete]; now rewrite H.
Qed.

(** C7, the claim as worded: a session that receives two finalized
    utterances and neither a close nor an error event ends after the first
    one; the second result is never delivered. *)
Lemma session_ends_after_first_utterance :
  let s := DeepgramLive.process_audio DeepgramLive.init Samples.quiet_callback
             [ DeepgramLive.Transcript Samples.final_hello;
               DeepgramLive.Transcript Samples.final_again ] in
  DeepgramLive.finished s = true
  /\ DeepgramLive.undelivered s = [ DeepgramLive.Transcript Samples.final_again ]
  /\ DeepgramLive.effects s
     = [ CallbackCalled "Hello"; CollectorReset; CompleteSet;
         AudioStopped; ConnectionFinished ].
Proof. vm_compute. repeat split. Qed.

(** A close or an error event is only printed: it leaves the transcriber
    as it was and does not end the wait of [process_audio]. *)
Lemma close_and_error_only_print
  (self : DeepgramLive.DeepgramLiveTranscriber) (cb : string -> result unit)
  (code reason error : string) :
  fst (DeepgramLive.on_close self code reason) = self
  /\ fst (DeepgramLive.on_error self error) = self
  /\ DeepgramLive.finished
       (DeepgramLive.process_audio self cb [DeepgramLive.Close code reason])
     = false
  /\ DeepgramLive.finished
       (DeepgramLive.process_audio self cb [DeepgramLive.Error error])
     = false.
Proof. repeat split. Qed.

(** C7, amended: inside [process_audio], a non-blank result with
    [speech_final] set whose callback returns resets the collector to
    empty and sets [transcription_complete]; the wait of [process_audio]
    then returns, the audio source is stopped and the connection finished:
    the session ends with the first finalized utterance, and the events
    still to come stay undelivered. *)
Theorem speech_final_completes_session
  (self : DeepgramLive.DeepgramLiveTranscriber) (cb : string -> result unit)
  (r : LiveResult) (rest : list DeepgramLive.stream_event) :
  truthy (strip (transcript r)) = true ->
  speech_final r = true ->
  let full :=
    join " "
      (DeepgramLive.transcript_parts (DeepgramLive.transcript_collector self)
         ++ [transcript r]) in
  cb full = Ok tt ->
  let s := DeepgramLive.process_audio self cb (DeepgramLive.Transcript r :: rest) in
  DeepgramLive.finished s = true
  /\ DeepgramLive.undelivered s = rest
  /\ DeepgramLive.transcript_parts
       (DeepgramLive.transcript_collector (DeepgramLive.transcriber s)) = []
  /\ DeepgramLive.effects s
     = [ CallbackCalled full; CollectorReset; CompleteSet;
         AudioStopped; ConnectionFinished ].
Proof.
  intros Hsent Hsf full Hok s. subst s.
  unfold DeepgramLive.process_audio.
  cbn [DeepgramLive.wait_complete DeepgramLive.transcription_complete
       DeepgramLive.dispatch].
  rewrite (on_message_speech_final
             {| DeepgramLive.transcript_collector :=
                  DeepgramLive.transcript_collector self;
                DeepgramLive.callback := Some cb;
                DeepgramLive.transcription_complete := Some false |}
             r cb eq_refl Hsent Hsf).
  cbn [DeepgramLive.transcript_collector DeepgramLive.transcript_parts].
  fold full. rewrite Hok.
  cbn [DeepgramLive.set_complete DeepgramLive.set_collector
       DeepgramLive.transcription_complete DeepgramLive.callback
       DeepgramLive.transcript_collector].
  rewrite wait_complete_set by reflexivity.
  cbn [DeepgramLive.finished DeepgramLive.undelivered DeepgramLive.transcriber
       DeepgramLive.effects DeepgramLive.transcript_collector
       DeepgramLive.transcript_parts].
  repeat split.
Qed.

Lemma speech_final_completes_session_witness :
  DeepgramLive.finished
    (DeepgramLive.process_audio DeepgramLive.init Samples.quiet_callback
       [ DeepgramLive.Transcript Samples.final_hello;
         DeepgramLive.Transcript Samples.final_again ]) = true
  /\ DeepgramLive.undelivered
       (DeepgramLive.process_audio DeepgramLive.init Samples.quiet_callback
          [ DeepgramLive.Transcript Samples.final_hello;
            DeepgramLive.Transcript Samples.final_again ])
     = [ DeepgramLive.Transcript Samples.final_again ].
Proof.
  destruct (speech_final_completes_session DeepgramLive.init
              Samples.quiet_callback Samples.final_hello
              [DeepgramLive.Transcript Samples.final_again])
    as (H1 & H2 & _).
  - vm_compute. reflexivity.
  - reflexivity.
  - reflexivity.
  - split; [exact H1 | exact H2].
Defined.

(** ** The minutes generator *)

Section Retry.
Import MoMGenerator.
Variable client : service.
Variable request : ChatRequest.
Variable max_retries : Z.

Lemma retry_loop_spec (n : nat) :
  forall made : nat,
    max_retries = Z.of_nat (made + n) ->
    let run := retry_loop client request max_retries
                 (seqZ (Z.of_nat made) (Z.of_nat n)) made in
    (exists m, (m <= n)%nat /\ sent (snd run) = replicate m request)
    /\ (forall k generated,
           (made <= k < made + n)%nat -> fails_between client request made k ->
           client k request = Ok generated ->
           fst run = Ok (Some generated)
           /\ sent (snd run) = replicate (S k - made) request)
    /\ (forall e,
           (0 < n)%nat -> fails_between client request made (made + n) ->
           client (made + n - 1) request = Raise e ->
           fst run = Raise e /\ sent (snd run) = replicate n request).
Proof.
  induction n as [|n IH]; intros made Hmax run.
  - subst run. cbn. split; [exists 0%nat; split; [lia | reflexivity]|].
    split; [intros; lia | intros; lia].
  - subst run.
    rewrite seqZ_cons by lia.
    replace (Z.succ (Z.of_nat made)) with (Z.of_nat (S made)) by lia.
    replace (Z.pred (Z.of_nat (S n))) with (Z.of_nat n) by lia.
    cbn [retry_loop].
    destruct (client made request) as [g|e] eqn:Hcall.
    + cbn [fst snd sent]. split; [exists 1%nat; split; [lia | reflexivity]|].
      split.
      * intros k generated Hk Hfail Hok.
        destruct (decide (k = made)) as [->|Hne].
        -- rewrite Hcall in Hok. injection Hok as <-.
           replace (S made - made)%nat with 1%nat by lia. split; reflexivity.
        -- destruct (Hfail made) as [e He]; [lia|]. congruence.
      * intros e _ Hfail _. destruct (Hfail made) as [e' He']; [lia|]. congruence.
    + destruct (decide (Z.of_nat made = (max_retries - 1)%Z)) as [Hlast|Hmore].
      * assert (n = 0%nat) by lia. subst n. cbn [fst snd sent].
        split; [exists 1%nat; split; [lia | reflexivity]|]. split.
        -- intros k generated Hk _ Hok.
           assert (k = made) by lia. subst k. congruence.
        -- intros e' _ _ He'.
           replace (made + 1 - 1)%nat with made in He' by lia.
           rewrite Hcall in He'. injection He' as <-. split; reflexivity.
      * assert (Hn : (0 < n)%nat) by lia.
        specialize (IH (S made) ltac:(lia)). cbv zeta in IH.
        destruct (retry_loop client request max_retries
                    (seqZ (Z.of_nat (S made)) (Z.of_nat n)) (S made))
          as [r effs].
        cbn [fst snd sent] in IH |- *.
        destruct IH as ((m & Hm & Hsent) & Hsucc & Hfail).
        split; [exists (S m); split; [lia | now rewrite Hsent]|]. split.
        -- intros k generated Hk Hbefore Hok.
           assert (k <> made) by congruence.
           destruct (Hsucc k generated) as [Hr Hs]; [lia| |exact Hok|].
           { intros j Hj. apply Hbefore. lia. }
           split; [exact Hr|]. rewrite Hs.
           replace (S k - made)%nat with (S (S k - S made)) by lia.
           reflexivity.
        -- intros e' _ Hall He'.
           destruct (Hfail e') as [Hr Hs]; [exact Hn| | |].
           { intros j Hj. apply Hall. lia. }
           { replace (S made + n - 1)%nat with (made + S n - 1)%nat by lia.
             exact He'. }
           split; [exact Hr|]. now rewrite Hs.
Qed.
End Retry.

(** C8: for a positive [max_retries], [generate_mom] sends at most
    [max_retries] requests, each one the same request; when the call
    number [k] is the first to succeed it returns that answer after
    exactly [k + 1] requests; when every call fails it raises the error of
    the last call after exactly [max_retries] requests. *)
Theorem generate_mom_retries
  (client : MoMGenerator.service) (current_date transcript language : string)
  (max_retries : Z) :
  (0 < max_retries)%Z ->
  let request :=
    MoMGenerator.mom_request
      (MoMGenerator.create_mom_prompt current_date transcript language) in
  let run :=
    MoMGenerator.generate_mom client current_date transcript language
      max_retries in
  let requests := MoMGenerator.sent (snd run) in
  (length requests <= Z.to_nat max_retries)%nat
  /\ Forall (fun sent_request => sent_request = request) requests
  /\ (forall (k : nat) (generated : string),
         (k < Z.to_nat max_retries)%nat ->
         MoMGenerator.fails_between client request 0 k ->
         client k request = Ok generated ->
         fst run = Ok (Some generated) /\ requests = replicate (S k) request)
  /\ (forall e : exn,
         MoMGenerator.fails_between client request 0 (Z.to_nat max_retries) ->
         client (Z.to_nat max_retries - 1)%nat request = Raise e ->
         fst run = Raise e
         /\ requests = replicate (Z.to_nat max_retries) request).
Proof.
  intros Hpos request run requests.
  pose proof (retry_loop_spec client request max_retries
                (Z.to_nat max_retries) 0 ltac:(lia)) as H.
  cbv zeta in H.
  replace (Z.of_nat (Z.to_nat max_retries)) with max_retries in H by lia.
  change (Z.of_nat 0) with 0%Z in H.
  change (MoMGenerator.retry_loop client request max_retries
            (seqZ 0 max_retries) 0) with run in H.
  fold requests in H.
  destruct H as ((m & Hm & Hsent) & Hsucc & Hfail).
  split; [rewrite Hsent, length_replicate; exact Hm|].
  split; [rewrite Hsent; apply Forall_forall; intros x Hx;
          apply elem_of_replicate in Hx; tauto|].
  split.
  - intros k generated Hk Hbefore Hok.
    destruct (Hsucc k generated) as [Hr Hs]; [lia | exact Hbefore | exact Hok |].
    split; [exact Hr|]. rewrite Hs. now replace (S k - 0)%nat with (S k) by lia.
  - intros e Hall He.
    destruct (Hfail e) as [Hr Hs]; [lia | exact Hall | exact He |].
    split; [exact Hr | exact Hs].
Qed.

Lemma generate_mom_retries_witness :
  (0 < 3)%Z
  /\ fst (MoMGenerator.generate_mom Samples.flaky_service
             "01-01-2025" "SPEAKER 0: Hi" "english" 3) = Ok (Some "minutes")
  /\ length (MoMGenerator.sent
               (snd (MoMGenerator.generate_mom Samples.flaky_service
                       "01-01-2025" "SPEAKER 0: Hi" "english" 3))) = 3%nat
  /\ fst (MoMGenerator.generate_mom Samples.dead_service
             "01-01-2025" "SPEAKER 0: Hi" "english" 3)
     = Raise (Exception "failure 2")
  /\ length (MoMGenerator.sent
               (snd (MoMGenerator.generate_mom Samples.dead_service
                       "01-01-2025" "SPEAKER 0: Hi" "english" 3))) = 3%nat.
Proof.
  split; [lia|].
  destruct (generate_mom_retries Samples.flaky_service
              "01-01-2025" "SPEAKER 0: Hi" "english" 3 ltac:(lia))
    as (_ & _ & Hsucc & _).
  destruct (generate_mom_retries Samples.dead_service
              "01-01-2025" "SPEAKER 0: Hi" "english" 3 ltac:(lia))
    as (_ & _ & _ & Hfail).
  destruct (Hsucc 2%nat "minutes") as [Hr Hs].
  - vm_compute. lia.
  - intros j Hj. exists (Exception "unavailable"). unfold Samples.flaky_service.
    rewrite decide_True by lia. reflexivity.
  - reflexivity.
  - destruct (Hfail (Exception "failure 2")) as [Hr' Hs'].
    + intros j Hj. eexists. reflexivity.
    + vm_compute. reflexivity.
    + split; [exact Hr|]. split; [rewrite Hs; reflexivity|].
      split; [exact Hr'|]. rewrite Hs'. reflexivity.
Defined.

(** C10: whenever [target_language.lower()] is [english],
    [translate_text] returns the text unchanged and sends no request. *)
Theorem translate_text_english
  (client : MoMGenerator.service) (text target_language : string) :
  lower target_language = "english" ->
  MoMGenerator.translate_text client text target_language = (Ok text, []).
Proof.
  intros H. unfold MoMGenerator.translate_text.
  rewrite decide_True by exact H. reflexivity.
Qed.

Lemma translate_text_english_witness :
  lower "English" = "english"
  /\ MoMGenerator.translate_text Samples.dead_service "SPEAKER 0: Hi" "English"
     = (Ok "SPEAKER 0: Hi", []).
Proof.
  split; [reflexivity|].
  apply (translate_text_english Samples.dead_service "SPEAKER 0: Hi" "English").
  reflexivity.
Defined.


(** * Further properties of the code *)

(** ** The transcript string *)

Lemma render_closed_last (t : Turn) : render_closed t = render_last t +:+ nl.
Proof. unfold render_closed, render_last. now rewrite append_assoc. Qed.

Lemma render_turns_join (turns : list Turn) :
  render_turns turns = join (nl +:+ nl) (map render_last turns).
Proof.
  unfold render_turns.
  induction turns as [|t turns IH]; [reflexivity|].
  destruct turns as [|t' rest]; [reflexivity|].
  change (render_lines (t :: t' :: rest))
    with (render_closed t :: render_lines (t' :: rest)).
  assert (Hcons : exists x l, render_lines (t' :: rest) = x :: l)
    by (destruct rest; eexists; eexists; reflexivity).
  destruct Hcons as (x & l & Hx). rewrite Hx in IH |- *.
  rewrite join_cons_cons, IH.
  cbn [map]. rewrite join_cons_cons, render_closed_last.
  now rewrite !append_assoc.
Qed.

(** X1: on well-formed words the string [create_transcript] returns is the
    turns, each printed as SPEAKER, the speaker number, a colon and the
    turn's text, with exactly one empty line between two turns and no line
    break at the end. *)
Theorem transcript_blank_line_between_turns (ws : list Word) :
  Transcript.transcript_of_words (map word_dict ws)
  = Ok (join (nl +:+ nl)
          (map (fun t => "SPEAKER " +:+ pretty (Z.of_nat (turn_speaker t))
                           +:+ ":" +:+ turn_text t)
             (segment ws))).
Proof.
  rewrite transcript_of_words_segment, render_turns_join.
  do 2 f_equal. apply map_ext. intros t.
  unfold render_last, Transcript.tag, format_value.
  now rewrite !append_assoc.
Qed.

(** ** The shape of the turns *)

Lemma collapse_runs_length (l : list nat) :
  (length (collapse_runs l) <= length l)%nat.
Proof.
  induction l as [|x l IH]; [reflexivity|].
  destruct l as [|y l]; [reflexivity|].
  change (collapse_runs (x :: y :: l))
    with (if decide (x = y) then collapse_runs (y :: l)
          else x :: collapse_runs (y :: l)).
  destruct (decide (x = y)); cbn [length] in *; lia.
Qed.

Lemma segment_loop_spaced (ws : list Word) :
  forall (closed : list Turn) (cs : nat) (cl : string),
    Forall (fun t => exists s, turn_text t = " " +:+ s) (tail closed) ->
    (closed <> [] -> exists s, cl = " " +:+ s) ->
    Forall (fun t => exists s, turn_text t = " " +:+ s)
      (tail (fst (segment_loop closed cs cl ws)
               ++ [snd (segment_loop closed cs cl ws)])).
Proof.
  induction ws as [|w ws IH]; intros closed cs cl Hclosed Hcl.
  - cbn [segment_loop fst snd]. destruct closed as [|t0 closed].
    + constructor.
    + cbn [app tail] in *. apply Forall_app. split; [exact Hclosed|].
      constructor; [|constructor]. apply Hcl. discriminate.
  - cbn [segment_loop]. destruct (decide (speaker w = cs)).
    + apply IH; [exact Hclosed|].
      intros Hne. destruct (Hcl Hne) as [s ->].
      exists (s +:+ (" " +:+ text w)). now rewrite append_assoc.
    + apply IH.
      * destruct closed as [|t0 closed]; [constructor|].
        cbn [app tail] in *. apply Forall_app. split; [exact Hclosed|].
        constructor; [|constructor]. apply Hcl. discriminate.
      * intros _. eexists. reflexivity.
Qed.

(** X2: [segment] never returns an empty list and returns at most one turn
    more than there are words; every turn after the first has a text that
    starts with a blank, so only the first turn can be empty; and when the
    first word belongs to speaker 0 the first turn starts with that word. *)
Theorem segment_turn_shape :
  (forall ws : list Word,
      (1 <= length (segment ws) <= S (length ws))%nat
      /\ Forall (fun t => exists s, turn_text t = " " +:+ s)
           (tail (segment ws)))
  /\ (forall (t : string) (rest : list Word),
         exists s more,
           segment ({| speaker := 0; text := t |} :: rest)
           = {| turn_speaker := 0; turn_text := " " +:+ t +:+ s |} :: more).
Proof.
  split.
  - intros ws. split.
    + rewrite <- (length_map turn_speaker), segment_speakers.
      pose proof (collapse_runs_length (0%nat :: map speaker ws)) as Hle.
      destruct (collapse_runs_head (map speaker ws) 0) as [l Hl].
      rewrite Hl in *. cbn [length] in *. rewrite length_map in Hle. lia.
    + rewrite segment_unfold. apply segment_loop_spaced; [constructor|].
      intros H. now contradiction H.
  - intros t rest. rewrite segment_unfold. cbn [segment_loop speaker text].
    rewrite decide_True by reflexivity.
    change ("" +:+ (" " +:+ t)) with (" " +:+ t).
    assert (H : forall ws cl,
               exists s more,
                 fst (segment_loop [] 0 cl ws) ++ [snd (segment_loop [] 0 cl ws)]
                 = {| turn_speaker := 0; turn_text := cl +:+ s |} :: more).
    { induction ws as [|w ws IH]; intros cl.
      - exists "", []. cbn. now rewrite append_empty_r.
      - cbn [segment_loop]. destruct (decide (speaker w = 0%nat)).
        + destruct (IH (cl +:+ (" " +:+ text w))) as (s & more & Hs).
          exists ((" " +:+ text w) +:+ s), more.
          now rewrite Hs, append_assoc.
        + exists "".
          assert (G : forall ws' closed cs' cl' t0,
                     exists more,
                       fst (segment_loop (t0 :: closed) cs' cl' ws')
                         ++ [snd (segment_loop (t0 :: closed) cs' cl' ws')]
                       = t0 :: more).
          { induction ws' as [|w' ws' IH']; intros closed cs' cl' t0.
            - eexists. reflexivity.
            - cbn [segment_loop]. destruct (decide (speaker w' = cs')).
              + apply IH'.
              + apply (IH' (closed ++ [_])). }
          destruct (G ws [] (speaker w) (" " +:+ text w)
                      {| turn_speaker := 0; turn_text := cl |}) as [more Hm].
          exists more. cbn [app]. rewrite Hm. now rewrite append_empty_r. }
    destruct (H rest (" " +:+ t)) as (s & more & Hs).
    exists s, more. rewrite Hs. now rewrite append_assoc.
Qed.

Lemma segment_loop_snoc (ws : list Word) (w : Word) :
  forall (closed : list Turn) (cs : nat) (cl : string),
    segment_loop closed cs cl (ws ++ [w])
    = let closed' := fst (segment_loop closed cs cl ws) in
      let last := snd (segment_loop closed cs cl ws) in
      if decide (speaker w = turn_speaker last) then
        (closed',
         {| turn_speaker := turn_speaker last;
            turn_text := turn_text last +:+ (" " +:+ text w) |})
      else
        (closed' ++ [last],
         {| turn_speaker := speaker w; turn_text := " " +:+ text w |}).
Proof.
  induction ws as [|x ws IH]; intros closed cs cl.
  - cbn [app segment_loop fst snd turn_speaker turn_text].
    destruct (decide (speaker w = cs)); reflexivity.
  - cbn [app segment_loop]. destruct (decide (speaker x = cs)); apply IH.
Qed.

(** X3: one more word at the end changes the turns at the end only: a word
    of the last turn's speaker extends the last turn by a blank and the
    word, and a word of another speaker adds one new turn after the turns
    there were. *)
Theorem segment_one_more_word (ws : list Word) (w : Word) :
  let closed := fst (segment_loop [] 0 "" ws) in
  let last := snd (segment_loop [] 0 "" ws) in
  segment ws = closed ++ [last]
  /\ segment (ws ++ [w])
     = if decide (speaker w = turn_speaker last) then
         closed ++ [ {| turn_speaker := turn_speaker last;
                        turn_text := turn_text last +:+ " " +:+ text w |} ]
       else
         segment ws ++ [ {| turn_speaker := speaker w;
                            turn_text := " " +:+ text w |} ].
Proof.
  cbv zeta. split; [apply segment_unfold|].
  rewrite (segment_unfold (ws ++ [w])), segment_loop_snoc. cbv zeta.
  destruct (decide (speaker w = turn_speaker (snd (segment_loop [] 0 "" ws)))).
  - reflexivity.
  - cbn [fst snd]. now rewrite segment_unfold.
Qed.

(** ** Word records the loop accepts *)

Lemma loop_body_ok_well_formed (st st' : Transcript.loop_state)
  (w : gmap string value) :
  Transcript.loop_body st w = Ok st' -> well_formed w.
Proof.
  unfold Transcript.loop_body, getitem, well_formed. intros H.
  destruct (w !! "speaker") as [sp|]; [|discriminate].
  destruct (w !! "punctuated_word") as [[z|s]|]; cbn [mbind result_bind] in H.
  - destruct (decide (sp = Transcript.curr_speaker st)); discriminate.
  - split; [eexists; reflexivity | exists s; reflexivity].
  - discriminate.
Qed.

Lemma run_loop_ok_well_formed (ws : list (gmap string value)) :
  forall st st', Transcript.run_loop st ws = Ok st' -> Forall well_formed ws.
Proof.
  induction ws as [|w ws IH]; intros st st' H; [constructor|].
  cbn [Transcript.run_loop] in H.
  destruct (Transcript.loop_body st w) as [st1|e] eqn:Hbody;
    cbn [mbind result_bind] in H; [|discriminate].
  constructor; [exact (loop_body_ok_well_formed _ _ _ Hbody) | exact (IH _ _ H)].
Qed.

(** X4: [create_transcript] returns a string exactly when every record has
    a speaker and a text that is a string, whatever kind of value the
    speaker is; on such input the copy in src/utils.py logs nothing and
    both copies return the same string. *)
Theorem create_transcript_succeeds_iff_well_formed
  (ws : list (gmap string value)) :
  ((exists s, Transcript.transcript_of_words ws = Ok s) <-> Forall well_formed ws)
  /\ (Forall well_formed ws ->
      exists s, Utils.create_transcript ws = ([], Ok s)
                /\ App.create_transcript (Some ws) = Ok s).
Proof.
  assert (Hok : Forall well_formed ws ->
                exists s, Transcript.transcript_of_words ws = Ok s).
  { intros Hwf.
    destruct (run_loop_well_formed ws Transcript.init_state Hwf) as [st Hst].
    unfold Transcript.transcript_of_words. rewrite Hst.
    eexists. reflexivity. }
  split; [split|].
  - intros [s Hs]. unfold Transcript.transcript_of_words in Hs.
    destruct (Transcript.run_loop Transcript.init_state ws) as [st|e] eqn:Hrun;
      [|discriminate].
    exact (run_loop_ok_well_formed _ _ _ Hrun).
  - exact Hok.
  - intros Hwf. destruct (Hok Hwf) as [s Hs]. exists s.
    unfold Utils.create_transcript, App.create_transcript. now rewrite Hs.
Qed.

Lemma create_transcript_succeeds_iff_well_formed_witness :
  exists s, Utils.create_transcript [Samples.good_word; Samples.good_word]
            = ([], Ok s).
Proof.
  destruct (create_transcript_succeeds_iff_well_formed
              [Samples.good_word; Samples.good_word]) as [_ H].
  destruct H as (s & Hs & _).
  - repeat constructor; eexists; vm_compute; reflexivity.
  - exists s. exact Hs.
Defined.

(** X5: when a record has both fields but its text is a number, and the
    records before it are well formed, [create_transcript] fails with the
    [TypeError] of adding a number to a string; the copy in src/utils.py
    logs that error and raises it again. *)
Theorem number_text_raises_type_error
  (pre post : list (gmap string value)) (w : gmap string value) (z : Z) :
  Forall well_formed pre ->
  is_Some (w !! "speaker") ->
  w !! "punctuated_word" = Some (VInt z) ->
  Transcript.transcript_of_words (pre ++ w :: post) = Raise TypeError
  /\ Utils.create_transcript (pre ++ w :: post)
     = (["Error creating transcript: can only concatenate str (not "
           +:+ dquote +:+ "int" +:+ dquote +:+ ") to str"],
        Raise TypeError)
  /\ App.create_transcript (Some (pre ++ w :: post)) = Raise TypeError.
Proof.
  intros Hpre [sp Hsp] Hword.
  assert (Hrun : Transcript.run_loop Transcript.init_state (pre ++ w :: post)
                 = Raise TypeError).
  { destruct (run_loop_well_formed pre Transcript.init_state Hpre) as [st Hst].
    rewrite (run_loop_app pre (w :: post) _ _ Hst).
    cbn [Transcript.run_loop]. unfold Transcript.loop_body, getitem.
    rewrite Hsp, Hword. cbn [mbind result_bind].
    destruct (decide (sp = Transcript.curr_speaker st)); reflexivity. }
  destruct (transcript_of_words_raise _ _ Hrun) as (H1 & H2 & H3).
  split; [exact H1|]. split; [|exact H3].
  rewrite H2. reflexivity.
Qed.

Lemma number_text_raises_type_error_witness :
  Transcript.transcript_of_words [Samples.good_word; Fixtures.number_text]
  = Raise TypeError.
Proof.
  destruct (number_text_raises_type_error
              [Samples.good_word] [] Fixtures.number_text 7) as (H & _).
  - repeat constructor; eexists; vm_compute; reflexivity.
  - eexists. vm_compute. reflexivity.
  - vm_compute. reflexivity.
  - exact H.
Defined.

(** ** Streams of live results *)

Lemma callback_calls_app (a b : list effect) :
  callback_calls (a ++ b) = callback_calls a ++ callback_calls b.
Proof.
  induction a as [|x a IH]; [reflexivity|].
  destruct x; cbn [app callback_calls]; now rewrite IH.
Qed.

Lemma kept_app (a b : list LiveResult) :
  LiveStream.kept (a ++ b) = LiveStream.kept a ++ LiveStream.kept b.
Proof. unfold LiveStream.kept. now rewrite map_app, List.filter_app. Qed.

Lemma closes_true (r : LiveResult) :
  LiveStream.closes r = true ->
  truthy (strip (transcript r)) = true /\ speech_final r = true
  /\ LiveStream.kept [r] = [transcript r].
Proof.
  unfold LiveStream.closes, LiveStream.kept. rewrite truthy_strip.
  intros H. apply andb_prop in H as [H1 H2]. cbn [map List.filter].
  rewrite H1. repeat split; assumption.
Qed.

Lemma set_collector_same (self : DeepgramLive.DeepgramLiveTranscriber) :
  DeepgramLive.set_collector self
    {| DeepgramLive.transcript_parts :=
         DeepgramLive.transcript_parts (DeepgramLive.transcript_collector self) |}
  = self.
Proof. destruct self as [[parts] cb tc]. reflexivity. Qed.

(** A result that does not run the finalize step only adds its transcript,
    when that is not blank, and has no effect. *)
Lemma on_message_quiet (self : DeepgramLive.DeepgramLiveTranscriber)
  (r : LiveResult) :
  LiveStream.closes r = false ->
  DeepgramLive.on_message self r
  = (DeepgramLive.set_collector self
       {| DeepgramLive.transcript_parts :=
            DeepgramLive.transcript_parts (DeepgramLive.transcript_collector self)
              ++ LiveStream.kept [r] |}, []).
Proof.
  unfold LiveStream.closes, LiveStream.kept, DeepgramLive.on_message.
  rewrite truthy_strip. cbn [map List.filter].
  destruct (all_space (transcript r)); cbn [negb andb].
  - intros _. now rewrite app_nil_r, set_collector_same.
  - intros ->. reflexivity.
Qed.

Lemma on_messages_quiet (rs : list LiveResult) :
  forall self : DeepgramLive.DeepgramLiveTranscriber,
    Forall (fun r => LiveStream.closes r = false) rs ->
    LiveStream.on_messages self rs
    = (DeepgramLive.set_collector self
         {| DeepgramLive.transcript_parts :=
              DeepgramLive.transcript_parts (DeepgramLive.transcript_collector self)
                ++ LiveStream.kept rs |}, []).
Proof.
  induction rs as [|r rs IH]; intros self Hq.
  - cbn [LiveStream.on_messages]. change (LiveStream.kept []) with (@nil string).
    now rewrite app_nil_r, set_collector_same.
  - inversion Hq as [|? ? Hr Hrs]; subst.
    cbn [LiveStream.on_messages]. rewrite (on_message_quiet self r Hr).
    rewrite (IH _ Hrs).
    cbn [DeepgramLive.set_collector DeepgramLive.transcript_collector
         DeepgramLive.transcript_parts DeepgramLive.callback
         DeepgramLive.transcription_complete app].
    change (r :: rs) with ([r] ++ rs). rewrite kept_app, app_assoc. reflexivity.
Qed.

Lemma on_messages_app (a b : list LiveResult) :
  forall self : DeepgramLive.DeepgramLiveTranscriber,
    LiveStream.on_messages self (a ++ b)
    = (fst (LiveStream.on_messages (fst (LiveStream.on_messages self a)) b),
       snd (LiveStream.on_messages self a)
         ++ snd (LiveStream.on_messages (fst (LiveStream.on_messages self a)) b)).
Proof.
  induction a as [|r a IH]; intros self.
  - cbn [app LiveStream.on_messages fst snd].
    now destruct (LiveStream.on_messages self b).
  - cbn [app LiveStream.on_messages].
    destruct (DeepgramLive.on_message self r) as [self1 effs1].
    rewrite (IH self1).
    destruct (LiveStream.on_messages self1 a) as [self2 effs2].
    cbn [fst snd]. now rewrite app_assoc.
Qed.

(** X6: results without [speech_final], and blank ones, only accumulate:
    whatever the callback, it is not invoked and nothing is printed, reset
    or completed, and the collector holds the parts it had followed by the
    non-blank transcripts in arrival order, interim results included. *)
Theorem quiet_results_accumulate
  (self : DeepgramLive.DeepgramLiveTranscriber) (rs : list LiveResult) :
  Forall (fun r => LiveStream.closes r = false) rs ->
  snd (LiveStream.on_messages self rs) = []
  /\ DeepgramLive.transcript_parts
       (DeepgramLive.transcript_collector (fst (LiveStream.on_messages self rs)))
     = DeepgramLive.transcript_parts (DeepgramLive.transcript_collector self)
         ++ LiveStream.kept rs
  /\ DeepgramLive.callback (fst (LiveStream.on_messages self rs))
     = DeepgramLive.callback self
  /\ DeepgramLive.transcription_complete (fst (LiveStream.on_messages self rs))
     = DeepgramLive.transcription_complete self.
Proof.
  intros Hq. rewrite (on_messages_quiet rs self Hq). repeat split.
Qed.

Lemma quiet_results_accumulate_witness :
  DeepgramLive.transcript_parts
    (DeepgramLive.transcript_collector
       (fst (LiveStream.on_messages Fixtures.quiet_transcriber
               [Fixtures.interim "Hel"; Fixtures.settled "   ";
                Fixtures.settled "Hello"])))
  = ["Hel"; "Hello"].
Proof.
  destruct (quiet_results_accumulate Fixtures.quiet_transcriber
              [Fixtures.interim "Hel"; Fixtures.settled "   ";
               Fixtures.settled "Hello"]) as (_ & H & _).
  - repeat constructor.
  - rewrite H. vm_compute. reflexivity.
Defined.

Lemma on_messages_single (self : DeepgramLive.DeepgramLiveTranscriber)
  (r : LiveResult) :
  LiveStream.on_messages self [r] = DeepgramLive.on_message self r.
Proof.
  cbn [LiveStream.on_messages].
  destruct (DeepgramLive.on_message self r) as [s e]. now rewrite app_nil_r.
Qed.

(** One utterance, handled from a collector holding [parts]: a single call
    of the callback, with the parts and the utterance's non-blank
    transcripts joined, and an empty collector afterwards. *)
Lemma on_messages_utterance (self : DeepgramLive.DeepgramLiveTranscriber)
  (cb : string -> result unit) (chunk : list LiveResult) :
  DeepgramLive.callback self = Some cb ->
  (forall s, cb s = Ok tt) ->
  Utterances.is_utterance chunk ->
  callback_calls (snd (LiveStream.on_messages self chunk))
  = [join " "
       (DeepgramLive.transcript_parts (DeepgramLive.transcript_collector self)
          ++ LiveStream.kept chunk)]
  /\ DeepgramLive.transcript_parts
       (DeepgramLive.transcript_collector
          (fst (LiveStream.on_messages self chunk))) = []
  /\ DeepgramLive.callback (fst (LiveStream.on_messages self chunk)) = Some cb.
Proof.
  intros Hcb Hok (body & fin & -> & Hbody & Hfin).
  destruct (closes_true fin Hfin) as (Hsent & Hsf & Hkept).
  rewrite on_messages_app, (on_messages_quiet body self Hbody).
  cbn [fst snd app]. rewrite on_messages_single.
  match goal with
  | |- context [DeepgramLive.on_message ?s fin] =>
      pose proof (on_message_speech_final s fin cb Hcb Hsent Hsf) as Hfinal
  end.
  cbv zeta in Hfinal. rewrite Hfinal. clear Hfinal.
  cbn [DeepgramLive.set_collector DeepgramLive.transcript_collector
       DeepgramLive.transcript_parts].
  rewrite Hok, kept_app, Hkept, <- app_assoc.
  unfold DeepgramLive.set_complete.
  cbn [DeepgramLive.transcription_complete DeepgramLive.set_collector].
  destruct (DeepgramLive.transcription_complete self);
    cbn [fst snd callback_calls app DeepgramLive.transcript_collector
         DeepgramLive.transcript_parts DeepgramLive.callback];
    repeat split; exact Hcb.
Qed.

(** X7: with a callback that always returns and a collector that starts
    empty, [on_message] cuts the stream of results into utterances: for a
    stream made of complete utterances followed by results that do not
    close one, the callback is invoked once per utterance, in order, each
    time with the single-blank join of that utterance's non-blank
    transcripts, and the collector is left holding the non-blank
    transcripts of the unfinished rest. *)
Theorem on_message_splits_utterances
  (cb : string -> result unit) (chunks : list (list LiveResult))
  (rest : list LiveResult) :
  (forall s, cb s = Ok tt) ->
  Forall Utterances.is_utterance chunks ->
  Forall (fun r => LiveStream.closes r = false) rest ->
  forall self : DeepgramLive.DeepgramLiveTranscriber,
    DeepgramLive.callback self = Some cb ->
    DeepgramLive.transcript_parts (DeepgramLive.transcript_collector self) = [] ->
    callback_calls
      (snd (LiveStream.on_messages self (List.concat chunks ++ rest)))
    = map (fun chunk => join " " (LiveStream.kept chunk)) chunks
    /\ DeepgramLive.transcript_parts
         (DeepgramLive.transcript_collector
            (fst (LiveStream.on_messages self (List.concat chunks ++ rest))))
       = LiveStream.kept rest.
Proof.
  intros Hok Hchunks Hrest.
  induction Hchunks as [|chunk chunks Hchunk _ IH]; intros self Hcb Hempty.
  - cbn [List.concat app map]. rewrite (on_messages_quiet rest self Hrest).
    cbn [fst snd callback_calls DeepgramLive.set_collector
         DeepgramLive.transcript_collector DeepgramLive.transcript_parts].
    now rewrite Hempty.
  - cbn [List.concat map]. rewrite <- app_assoc, on_messages_app.
    cbn [fst snd]. rewrite callback_calls_app.
    destruct (on_messages_utterance self cb chunk Hcb Hok Hchunk)
      as (Hcalls & Hparts & Hcb').
    destruct (IH _ Hcb' Hparts) as [IHcalls IHparts].
    rewrite Hcalls, IHcalls, IHparts, Hempty. split; reflexivity.
Qed.

Lemma on_message_splits_utterances_witness :
  callback_calls
    (snd (LiveStream.on_messages Fixtures.quiet_transcriber
            [Fixtures.settled "Good"; Fixtures.closing "morning";
             Fixtures.closing "Thanks"; Fixtures.settled "and"]))
  = ["Good morning"; "Thanks"].
Proof.
  destruct (on_message_splits_utterances Samples.quiet_callback
              [[Fixtures.settled "Good"; Fixtures.closing "morning"];
               [Fixtures.closing "Thanks"]]
              [Fixtures.settled "and"]) with (self := Fixtures.quiet_transcriber)
    as [H _].
  - reflexivity.
  - constructor; [|constructor; [|constructor]].
    + exists [Fixtures.settled "Good"], (Fixtures.closing "morning").
      split; [reflexivity|]. split; [repeat constructor | reflexivity].
    + exists [], (Fixtures.closing "Thanks").
      split; [reflexivity|]. split; [constructor | reflexivity].
  - repeat constructor.
  - reflexivity.
  - reflexivity.
  - exact H.
Defined.

(** ** Sessions of [process_audio] *)

Lemma results_of_cons (ev : DeepgramLive.stream_event)
  (events : list DeepgramLive.stream_event) :
  LiveStream.results_of (ev :: events)
  = LiveStream.results_of [ev] ++ LiveStream.results_of events.
Proof. destruct ev; reflexivity. Qed.

Lemma dispatch_quiet (self : DeepgramLive.DeepgramLiveTranscriber)
  (ev : DeepgramLive.stream_event) :
  LiveStream.closes_event ev = false ->
  exists shown,
    callback_calls shown = []
    /\ DeepgramLive.dispatch self ev
       = (DeepgramLive.set_collector self
            {| DeepgramLive.transcript_parts :=
                 DeepgramLive.transcript_parts
                   (DeepgramLive.transcript_collector self)
                   ++ LiveStream.kept (LiveStream.results_of [ev]) |}, shown).
Proof.
  intros Hq. destruct ev as [r|error|code reason|metadata];
    cbn [DeepgramLive.dispatch LiveStream.results_of].
  - exists []. split; [reflexivity|]. now apply on_message_quiet.
  - eexists. split; [|unfold DeepgramLive.on_error;
                       change (LiveStream.kept []) with (@nil string);
                       now rewrite app_nil_r, set_collector_same].
    reflexivity.
  - eexists. split; [|unfold DeepgramLive.on_close;
                       change (LiveStream.kept []) with (@nil string);
                       now rewrite app_nil_r, set_collector_same].
    reflexivity.
  - eexists. split; [|unfold DeepgramLive.on_metadata;
                       change (LiveStream.kept []) with (@nil string);
                       now rewrite app_nil_r, set_collector_same].
    reflexivity.
Qed.

Lemma wait_complete_quiet (events : list DeepgramLive.stream_event) :
  forall (self : DeepgramLive.DeepgramLiveTranscriber) (effs : list effect)
         (more : list DeepgramLive.stream_event),
    DeepgramLive.transcription_complete self = Some false ->
    Forall (fun ev => LiveStream.closes_event ev = false) events ->
    exists shown,
      callback_calls shown = []
      /\ DeepgramLive.wait_complete self effs (events ++ more)
         = DeepgramLive.wait_complete
             (DeepgramLive.set_collector self
                {| DeepgramLive.transcript_parts :=
                     DeepgramLive.transcript_parts
                       (DeepgramLive.transcript_collector self)
                       ++ LiveStream.kept (LiveStream.results_of events) |})
             (effs ++ shown) more.
Proof.
  induction events as [|ev events IH]; intros self effs more Htc Hq.
  - exists []. split; [reflexivity|].
    change (LiveStream.kept (LiveStream.results_of [])) with (@nil string).
    now rewrite !app_nil_r, set_collector_same.
  - inversion Hq as [|? ? Hev Hevents]; subst.
    destruct (dispatch_quiet self ev Hev) as (shown1 & Hs1 & Hd).
    cbn [app DeepgramLive.wait_complete]. rewrite Htc, Hd.
    destruct (IH (DeepgramLive.set_collector self
                    {| DeepgramLive.transcript_parts :=
                         DeepgramLive.transcript_parts
                           (DeepgramLive.transcript_collector self)
                           ++ LiveStream.kept (LiveStream.results_of [ev]) |})
                (effs ++ shown1) more Htc Hevents) as (shown2 & Hs2 & Hw).
    exists (shown1 ++ shown2). split.
    + now rewrite callback_calls_app, Hs1, Hs2.
    + rewrite Hw.
      cbn [DeepgramLive.set_collector DeepgramLive.transcript_collector
           DeepgramLive.transcript_parts DeepgramLive.callback
           DeepgramLive.transcription_complete].
      rewrite (results_of_cons ev events), kept_app, <- !app_assoc.
      reflexivity.
Qed.

(** X8: a session whose events run no finalize step never ends by itself
    and never invokes the callback, whatever the callback and however many
    close, error or metadata events arrive: every event is consumed, the
    wait goes on, and the collector holds the non-blank transcripts in
    arrival order. *)
Theorem session_without_speech_final_keeps_waiting
  (self : DeepgramLive.DeepgramLiveTranscriber) (cb : string -> result unit)
  (events : list DeepgramLive.stream_event) :
  Forall (fun ev => LiveStream.closes_event ev = false) events ->
  let s := DeepgramLive.process_audio self cb events in
  DeepgramLive.finished s = false
  /\ DeepgramLive.undelivered s = []
  /\ callback_calls (DeepgramLive.effects s) = []
  /\ DeepgramLive.transcript_parts
       (DeepgramLive.transcript_collector (DeepgramLive.transcriber s))
     = DeepgramLive.transcript_parts (DeepgramLive.transcript_collector self)
         ++ LiveStream.kept (LiveStream.results_of events).
Proof.
  intros Hq s. subst s. unfold DeepgramLive.process_audio.
  destruct (wait_complete_quiet events
              {| DeepgramLive.transcript_collector :=
                   DeepgramLive.transcript_collector self;
                 DeepgramLive.callback := Some cb;
                 DeepgramLive.transcription_complete := Some false |}
              [] [] eq_refl Hq) as (shown & Hshown & Hw).
  rewrite app_nil_r in Hw. rewrite Hw.
  cbn [DeepgramLive.wait_complete DeepgramLive.set_collector
       DeepgramLive.transcription_complete DeepgramLive.finished
       DeepgramLive.undelivered DeepgramLive.effects DeepgramLive.transcriber
       DeepgramLive.transcript_collector DeepgramLive.transcript_parts app].
  repeat split. exact Hshown.
Qed.

Lemma session_without_speech_final_keeps_waiting_witness :
  DeepgramLive.finished
    (DeepgramLive.process_audio DeepgramLive.init Samples.failing_callback
       [ DeepgramLive.Transcript (Fixtures.settled "Hello");
         DeepgramLive.Error "timeout";
         DeepgramLive.Close "1000" "bye" ]) = false.
Proof.
  destruct (session_without_speech_final_keeps_waiting DeepgramLive.init
              Samples.failing_callback
              [ DeepgramLive.Transcript (Fixtures.settled "Hello");
                DeepgramLive.Error "timeout";
                DeepgramLive.Close "1000" "bye" ]) as (H & _).
  - repeat constructor.
  - exact H.
Defined.

(** X9: a session ends with the first result that runs the finalize step,
    when the callback returns on the utterance: whatever events came
    before it, close and error events included, the callback is invoked
    exactly once, with the collector's parts and the non-blank transcripts
    up to that result joined by single blanks; the collector is left empty
    and the events after that result are not consumed. *)
Theorem session_emits_first_utterance
  (self : DeepgramLive.DeepgramLiveTranscriber) (cb : string -> result unit)
  (body rest : list DeepgramLive.stream_event) (fin : LiveResult) :
  Forall (fun ev => LiveStream.closes_event ev = false) body ->
  LiveStream.closes fin = true ->
  let full :=
    join " "
      (DeepgramLive.transcript_parts (DeepgramLive.transcript_collector self)
         ++ LiveStream.kept (LiveStream.results_of body) ++ [transcript fin]) in
  cb full = Ok tt ->
  let s := DeepgramLive.process_audio self cb
             (body ++ DeepgramLive.Transcript fin :: rest) in
  DeepgramLive.finished s = true
  /\ DeepgramLive.undelivered s = rest
  /\ callback_calls (DeepgramLive.effects s) = [full]
  /\ DeepgramLive.transcript_parts
       (DeepgramLive.transcript_collector (DeepgramLive.transcriber s)) = [].
Proof.
  intros Hq Hfin full Hok s. subst s. unfold DeepgramLive.process_audio.
  destruct (closes_true fin Hfin) as (Hsent & Hsf & _).
  destruct (wait_complete_quiet body
              {| DeepgramLive.transcript_collector :=
                   DeepgramLive.transcript_collector self;
                 DeepgramLive.callback := Some cb;
                 DeepgramLive.transcription_complete := Some false |}
              [] (DeepgramLive.Transcript fin :: rest) eq_refl Hq)
    as (shown & Hshown & Hw).
  rewrite Hw. clear Hw.
  cbn [DeepgramLive.wait_complete DeepgramLive.set_collector
       DeepgramLive.transcription_complete DeepgramLive.dispatch
       DeepgramLive.transcript_collector DeepgramLive.transcript_parts
       DeepgramLive.callback app].
  match goal with
  | |- context [DeepgramLive.on_message ?s fin] =>
      pose proof (on_message_speech_final s fin cb eq_refl Hsent Hsf) as Hfinal
  end.
  cbv zeta in Hfinal. rewrite Hfinal. clear Hfinal.
  cbn [DeepgramLive.set_collector DeepgramLive.transcript_collector
       DeepgramLive.transcript_parts].
  rewrite <- app_assoc. fold full. rewrite Hok.
  cbn [DeepgramLive.set_complete DeepgramLive.set_collector
       DeepgramLive.transcription_complete DeepgramLive.callback
       DeepgramLive.transcript_collector].
  rewrite wait_complete_set by reflexivity.
  cbn [DeepgramLive.finished DeepgramLive.undelivered DeepgramLive.transcriber
       DeepgramLive.effects DeepgramLive.transcript_collector
       DeepgramLive.transcript_parts].
  repeat split.
  rewrite !callback_calls_app, Hshown. reflexivity.
Qed.

Lemma session_emits_first_utterance_witness :
  callback_calls
    (DeepgramLive.effects
       (DeepgramLive.process_audio DeepgramLive.init Samples.quiet_callback
          [ DeepgramLive.Transcript (Fixtures.settled "Good");
            DeepgramLive.Error "timeout";
            DeepgramLive.Transcript (Fixtures.closing "morning");
            DeepgramLive.Transcript (Fixtures.closing "Thanks") ]))
  = ["Good morning"].
Proof.
  destruct (session_emits_first_utterance DeepgramLive.init
              Samples.quiet_callback
              [ DeepgramLive.Transcript (Fixtures.settled "Good");
                DeepgramLive.Error "timeout" ]
              [ DeepgramLive.Transcript (Fixtures.closing "Thanks") ]
              (Fixtures.closing "morning")) as (_ & _ & H & _).
  - repeat constructor.
  - reflexivity.
  - reflexivity.
  - exact H.
Defined.

Lemma dispatch_raising (self : DeepgramLive.DeepgramLiveTranscriber)
  (cb : string -> result unit) (ev : DeepgramLive.stream_event) :
  DeepgramLive.callback self = Some cb ->
  (forall s, exists e, cb s = Raise e) ->
  exists shown,
    length (callback_calls shown)
    = (if LiveStream.closes_event ev then 1 else 0)%nat
    /\ DeepgramLive.dispatch self ev
       = (DeepgramLive.set_collector self
            {| DeepgramLive.transcript_parts :=
                 DeepgramLive.transcript_parts
                   (DeepgramLive.transcript_collector self)
                   ++ LiveStream.kept (LiveStream.results_of [ev]) |}, shown).
Proof.
  intros Hcb Hraise.
  destruct (LiveStream.closes_event ev) eqn:Hev.
  - destruct ev as [r| | |]; try discriminate.
    cbn [LiveStream.closes_event] in Hev.
    destruct (closes_true r Hev) as (Hsent & Hsf & Hkept).
    pose proof (on_message_speech_final self r cb Hcb Hsent Hsf) as H.
    cbv zeta in H.
    destruct (Hraise (join " "
                (DeepgramLive.transcript_parts
                   (DeepgramLive.transcript_collector self) ++ [transcript r])))
      as [e He].
    rewrite He in H. eexists. split; [|cbn [DeepgramLive.dispatch
                                           LiveStream.results_of];
                                       rewrite Hkept; exact H].
    reflexivity.
  - destruct (dispatch_quiet self ev Hev) as (shown & Hs & Hd).
    exists shown. split; [now rewrite Hs | exact Hd].
Qed.

Lemma wait_complete_raising (cb : string -> result unit)
  (events : list DeepgramLive.stream_event) :
  (forall s, exists e, cb s = Raise e) ->
  forall (self : DeepgramLive.DeepgramLiveTranscriber) (effs : list effect),
    DeepgramLive.callback self = Some cb ->
    DeepgramLive.transcription_complete self = Some false ->
    exists shown,
      length (callback_calls shown) = Utterances.closing_events events
      /\ DeepgramLive.wait_complete self effs events
         = {| DeepgramLive.transcriber :=
                DeepgramLive.set_collector self
                  {| DeepgramLive.transcript_parts :=
                       DeepgramLive.transcript_parts
                         (DeepgramLive.transcript_collector self)
                         ++ LiveStream.kept (LiveStream.results_of events) |};
              DeepgramLive.effects := effs ++ shown;
              DeepgramLive.finished := false;
              DeepgramLive.undelivered := [] |}.
Proof.
  intros Hraise. induction events as [|ev events IH]; intros self effs Hcb Htc.
  - exists []. split; [reflexivity|].
    cbn [DeepgramLive.wait_complete]. rewrite Htc.
    change (LiveStream.kept (LiveStream.results_of [])) with (@nil string).
    now rewrite !app_nil_r, set_collector_same.
  - destruct (dispatch_raising self cb ev Hcb Hraise) as (shown1 & Hs1 & Hd).
    cbn [DeepgramLive.wait_complete]. rewrite Htc, Hd.
    destruct (IH (DeepgramLive.set_collector self
                    {| DeepgramLive.transcript_parts :=
                         DeepgramLive.transcript_parts
                           (DeepgramLive.transcript_collector self)
                           ++ LiveStream.kept (LiveStream.results_of [ev]) |})
                (effs ++ shown1) Hcb Htc) as (shown2 & Hs2 & Hw).
    exists (shown1 ++ shown2). split.
    + rewrite callback_calls_app, length_app, Hs1, Hs2.
      unfold Utterances.closing_events. cbn [List.filter].
      destruct (LiveStream.closes_event ev); reflexivity.
    + rewrite Hw.
      cbn [DeepgramLive.set_collector DeepgramLive.transcript_collector
           DeepgramLive.transcript_parts DeepgramLive.callback
           DeepgramLive.transcription_complete].
      rewrite (results_of_cons ev events), kept_app, <- !app_assoc.
      reflexivity.
Qed.

(** X10: with a callback that raises on every text, a session never ends by
    itself and the collector is never reset: every event is consumed, the
    callback is invoked once for each result that runs the finalize step,
    and the collector ends up holding its parts followed by every
    non-blank transcript of the session. *)
Theorem failing_callback_session_never_resets
  (self : DeepgramLive.DeepgramLiveTranscriber) (cb : string -> result unit)
  (events : list DeepgramLive.stream_event) :
  (forall s, exists e, cb s = Raise e) ->
  let s := DeepgramLive.process_audio self cb events in
  DeepgramLive.finished s = false
  /\ DeepgramLive.undelivered s = []
  /\ length (callback_calls (DeepgramLive.effects s))
     = Utterances.closing_events events
  /\ DeepgramLive.transcript_parts
       (DeepgramLive.transcript_collector (DeepgramLive.transcriber s))
     = DeepgramLive.transcript_parts (DeepgramLive.transcript_collector self)
         ++ LiveStream.kept (LiveStream.results_of events).
Proof.
  intros Hraise s. subst s. unfold DeepgramLive.process_audio.
  destruct (wait_complete_raising cb events Hraise
              {| DeepgramLive.transcript_collector :=
                   DeepgramLive.transcript_collector self;
                 DeepgramLive.callback := Some cb;
                 DeepgramLive.transcription_complete := Some false |}
              [] eq_refl eq_refl) as (shown & Hshown & Hw).
  rewrite Hw.
  cbn [DeepgramLive.finished DeepgramLive.undelivered DeepgramLive.effects
       DeepgramLive.transcriber DeepgramLive.set_collector
       DeepgramLive.transcript_collector DeepgramLive.transcript_parts app].
  repeat split. exact Hshown.
Qed.

Lemma failing_callback_session_never_resets_witness :
  DeepgramLive.transcript_parts
    (DeepgramLive.transcript_collector
       (DeepgramLive.transcriber
          (DeepgramLive.process_audio DeepgramLive.init
             Samples.failing_callback
             [ DeepgramLive.Transcript (Fixtures.closing "Hello");
               DeepgramLive.Transcript (Fixtures.closing "again") ])))
  = ["Hello"; "again"].
Proof.
  destruct (failing_callback_session_never_resets DeepgramLive.init
              Samples.failing_callback
              [ DeepgramLive.Transcript (Fixtures.closing "Hello");
                DeepgramLive.Transcript (Fixtures.closing "again") ])
    as (_ & _ & _ & H).
  - intros s. eexists. reflexivity.
  - rewrite H. vm_compute. reflexivity.
Defined.

(** ** live_speech.py *)

Lemma collect_parts (rs : list LiveResult) :
  forall c : LiveSpeech.TranscriptCollector,
    LiveSpeech.transcript_parts (fst (LiveStream.collect c rs))
    = LiveSpeech.transcript_parts c
        ++ LiveStream.kept (List.filter is_final rs).
Proof.
  induction rs as [|r rs IH]; intros c.
  - cbn. now rewrite app_nil_r.
  - cbn [LiveStream.collect List.filter].
    destruct (LiveSpeech.on_message c r) as [c1 effs1] eqn:Hm.
    specialize (IH c1).
    destruct (LiveStream.collect c1 rs) as [c2 effs2]. cbn [fst] in *.
    rewrite IH. unfold LiveSpeech.on_message in Hm.
    destruct (is_final r).
    + change (r :: List.filter is_final rs)
        with ([r] ++ List.filter is_final rs).
      rewrite kept_app, app_assoc. f_equal.
      unfold LiveStream.kept. cbn [map List.filter].
      rewrite truthy_strip in Hm. unfold LiveSpeech.add_part in Hm.
      rewrite truthy_strip in Hm.
      destruct (all_space (transcript r)); cbn [negb] in *;
        injection Hm as <- _; cbn [LiveSpeech.transcript_parts];
        [now rewrite app_nil_r | reflexivity].
    + injection Hm as <- _. reflexivity.
Qed.

Lemma truthy_append_l (a b : string) : truthy a = true -> truthy (a +:+ b) = true.
Proof. destruct a; [discriminate | reflexivity]. Qed.

Lemma not_blank_truthy (s : string) : all_space s = false -> truthy s = true.
Proof. destruct s; [discriminate | reflexivity]. Qed.

Lemma kept_cons_truthy (x : string) (l : list string) (rs : list LiveResult) :
  LiveStream.kept rs = x :: l -> truthy (join " " (x :: l)) = true.
Proof.
  intros H.
  assert (Hx : all_space x = false).
  { assert (Hin : In x (LiveStream.kept rs)) by (rewrite H; now left).
    unfold LiveStream.kept in Hin. apply List.filter_In in Hin as [_ Hin].
    now destruct (all_space x). }
  destruct l as [|y l].
  - now apply not_blank_truthy.
  - rewrite join_cons_cons. now apply truthy_append_l, not_blank_truthy.
Qed.

(** X11: in live_speech.py the collector keeps exactly the transcripts of
    the results that are final and not blank, in arrival order; interim
    results never reach it.  At the end the transcript is their
    single-blank join, and a file is written exactly when there is at
    least one such result, with that transcript as content. *)
Theorem live_speech_saves_final_results
  (rs : list LiveResult) (timestamp : string) :
  let collector := fst (LiveStream.collect LiveSpeech.new rs) in
  let finals := LiveStream.kept (List.filter is_final rs) in
  LiveSpeech.transcript_parts collector = finals
  /\ LiveSpeech.get_transcript collector = join " " finals
  /\ LiveStream.save_transcript collector timestamp
     = match finals with
       | [] => None
       | _ => Some ("transcript_" +:+ timestamp +:+ ".txt", join " " finals)
       end.
Proof.
  cbv zeta. pose proof (collect_parts rs LiveSpeech.new) as Hparts.
  cbn [LiveSpeech.new LiveSpeech.transcript_parts app] in Hparts.
  split; [exact Hparts|]. split.
  - unfold LiveSpeech.get_transcript. now rewrite Hparts.
  - unfold LiveStream.save_transcript, LiveSpeech.get_transcript.
    rewrite Hparts.
    destruct (LiveStream.kept (List.filter is_final rs)) as [|x l] eqn:Hk;
      [reflexivity|].
    now rewrite (kept_cons_truthy x l _ Hk).
Qed.

(** ** The minutes generator, further *)

(** X12: with a [max_retries] of zero or less the loop of [generate_mom]
    does not run: no request is sent, nothing is printed and the call
    returns [None] instead of raising. *)
Theorem generate_mom_without_attempts
  (client : MoMGenerator.service) (current_date transcript language : string)
  (max_retries : Z) :
  (max_retries <= 0)%Z ->
  MoMGenerator.generate_mom client current_date transcript language max_retries
  = (Ok None, []).
Proof.
  intros Hle. unfold MoMGenerator.generate_mom, seqZ.
  replace (Z.to_nat max_retries) with 0%nat by lia. reflexivity.
Qed.

Lemma generate_mom_without_attempts_witness :
  MoMGenerator.generate_mom Samples.flaky_service "01-01-2025" "SPEAKER 0: Hi"
    "english" 0 = (Ok None, []).
Proof.
  apply (generate_mom_without_attempts Samples.flaky_service
           "01-01-2025" "SPEAKER 0: Hi" "english" 0).
  lia.
Defined.

(** X13: for a target language other than English, [translate_text] of the
    generator sends exactly one request, whose prompt contains the text
    verbatim, and its outcome is the outcome of that one call: the
    translation when the service answers, the service's exception, raised
    again, when it fails; there is no retry and no fallback to the
    text. *)
Theorem translate_text_single_request
  (client : MoMGenerator.service) (text target_language : string) :
  lower target_language <> "english" ->
  let request := MoMGenerator.translate_request text target_language in
  let run := MoMGenerator.translate_text client text target_language in
  MoMGenerator.sent (snd run) = [request]
  /\ fst run = client 0%nat request
  /\ exists before after,
       MoMGenerator.content request = before +:+ text +:+ after.
Proof.
  intros Hne request run. subst run. unfold MoMGenerator.translate_text.
  rewrite decide_False by exact Hne. fold request.
  split; [|split].
  - destruct (client 0%nat request); reflexivity.
  - destruct (client 0%nat request); reflexivity.
  - unfold request, MoMGenerator.translate_request,
      MoMGenerator.translate_prompt.
    cbn [MoMGenerator.content].
    eexists (nl +:+ "        Translate the following diarized output to "
               +:+ target_language +:+ ":" +:+ nl +:+ "        " +:+ nl
               +:+ "        "), _.
    unfold join. cbn [String.concat].
    rewrite !append_assoc. reflexivity.
Qed.

Lemma translate_text_single_request_witness :
  fst (MoMGenerator.translate_text Samples.dead_service "SPEAKER 0: Hi"
         "Japanese")
  = Raise (Exception "failure 0").
Proof.
  destruct (translate_text_single_request Samples.dead_service
              "SPEAKER 0: Hi" "Japanese") as (_ & H & _).
  - vm_compute. discriminate.
  - rewrite H. reflexivity.
Defined.

(** X14: [get_mom_generator] builds the generator once: after a first call
    that succeeded, which takes a key that is present and not empty, every
    later call returns that same generator and leaves the global as it is,
    whatever the environment has become. *)
Theorem get_mom_generator_singleton
  (env1 env2 : gmap string string) (g : MoMModule.generator)
  (global1 : option MoMModule.generator) :
  MoMModule.get_mom_generator env1 None = (inr g, global1) ->
  env1 !! "OPEN_AI_TOKEN" = Some (MoMModule.api_key g)
  /\ MoMModule.api_key g <> ""
  /\ global1 = Some g
  /\ MoMModule.get_mom_generator env2 global1 = (inr g, global1).
Proof.
  unfold MoMModule.get_mom_generator, MoMModule.init. intros H.
  destruct (env1 !! "OPEN_AI_TOKEN") as [key|]; [|discriminate].
  destruct key as [|c key]; cbn [truthy] in H; [discriminate|].
  injection H as <- <-. cbn [MoMModule.api_key].
  repeat split. discriminate.
Qed.

Lemma get_mom_generator_singleton_witness :
  MoMModule.get_mom_generator ∅
    (snd (MoMModule.get_mom_generator Fixtures.env_with_key None))
  = (inr {| MoMModule.api_key := "sk-test" |},
     Some {| MoMModule.api_key := "sk-test" |}).
Proof.
  destruct (get_mom_generator_singleton Fixtures.env_with_key ∅
              {| MoMModule.api_key := "sk-test" |}
              (Some {| MoMModule.api_key := "sk-test" |}))
    as (_ & _ & _ & H).
  - vm_compute. reflexivity.
  - exact H.
Defined.

Lemma generate_mom_three_requests (client : MoMGenerator.service)
  (current_date transcript language : string) :
  (length (MoMGenerator.sent
             (snd (MoMGenerator.generate_mom client current_date transcript
                     language 3))) <= 3)%nat.
Proof.
  pose proof (retry_loop_spec client
                (MoMGenerator.mom_request
                   (MoMGenerator.create_mom_prompt current_date transcript
                      language)) 3 3 0 eq_refl) as H.
  cbv zeta in H. destruct H as ((m & Hm & Hsent) & _).
  unfold MoMGenerator.generate_mom.
  change (seqZ 0 3) with (seqZ (Z.of_nat 0) (Z.of_nat 3)).
  rewrite Hsent, length_replicate. exact Hm.
Qed.

(** X15: the module-level [generate_mom] fails with [ValueError], before
    any request and leaving the global unset, exactly when no generator
    exists yet and the key is missing or empty.  In every other case it
    succeeds in getting a generator: the existing one, whatever the
    environment, or a new one built from a key that is present and not
    empty, which it stores in the global; it then runs that generator's
    [generate_mom] with three attempts, sending at most three requests. *)
Theorem module_generate_mom_outcomes
  (client : string -> MoMGenerator.service) (env : gmap string string)
  (global : option MoMModule.generator)
  (current_date transcript language : string) :
  let out :=
    MoMModule.generate_mom client env global current_date transcript language in
  let no_key :=
    env !! "OPEN_AI_TOKEN" = None \/ env !! "OPEN_AI_TOKEN" = Some "" in
  let run_with key :=
    MoMGenerator.generate_mom (client key) current_date transcript language 3 in
  ((exists e global', out = (inl e, global')) <-> global = None /\ no_key)
  /\ (global = None -> no_key ->
      out = (inl (MoMModule.ValueError
                    "OpenAI API key not found in environment variables"),
             None))
  /\ (forall g, global = Some g ->
                out = (inr (run_with (MoMModule.api_key g)), Some g))
  /\ (forall key, global = None -> env !! "OPEN_AI_TOKEN" = Some key ->
                  key <> "" ->
                  out = (inr (run_with key),
                         Some {| MoMModule.api_key := key |}))
  /\ (forall key, (length (MoMGenerator.sent (snd (run_with key))) <= 3)%nat).
Proof.
  cbv zeta.
  unfold MoMModule.generate_mom, MoMModule.get_mom_generator, MoMModule.init.
  split; [|split; [|split; [|split]]].
  - destruct global as [g|].
    + split; [intros (e & g' & H); discriminate | intros [H _]; discriminate].
    + destruct (env !! "OPEN_AI_TOKEN") as [[|c key]|]; cbn [truthy].
      * split; [intros _; split; [reflexivity | now right]|].
        intros _. eexists. eexists. reflexivity.
      * split; [intros (e & g' & H); discriminate|].
        intros [_ [H|H]]; discriminate.
      * split; [intros _; split; [reflexivity | now left]|].
        intros _. eexists. eexists. reflexivity.
  - intros -> [H|H]; rewrite H; reflexivity.
  - intros g ->. reflexivity.
  - intros key -> Hkey Hne. rewrite Hkey.
    destruct key as [|c key]; [now contradiction Hne | reflexivity].
  - intros key. apply generate_mom_three_requests.
Qed.

Lemma module_generate_mom_outcomes_witness :
  MoMModule.generate_mom (fun _ => Samples.flaky_service)
    Fixtures.env_empty_key None "01-01-2025" "SPEAKER 0: Hi" "english"
  = (inl (MoMModule.ValueError
            "OpenAI API key not found in environment variables"), None)
  /\ snd (MoMModule.generate_mom (fun _ => Samples.flaky_service)
            Fixtures.env_with_key None "01-01-2025" "SPEAKER 0: Hi" "english")
     = Some {| MoMModule.api_key := "sk-test" |}.
Proof.
  destruct (module_generate_mom_outcomes (fun _ => Samples.flaky_service)
              Fixtures.env_empty_key None "01-01-2025" "SPEAKER 0: Hi"
              "english") as (_ & Hfail & _).
  destruct (module_generate_mom_outcomes (fun _ => Samples.flaky_service)
              Fixtures.env_with_key None "01-01-2025" "SPEAKER 0: Hi"
              "english") as (_ & _ & _ & Hnew & _).
  split.
  - apply Hfail; [reflexivity | right; vm_compute; reflexivity].
  - rewrite (Hnew "sk-test"); [reflexivity | reflexivity
                               | vm_compute; reflexivity | discriminate].
Defined.

(** ** The log-in gate of src/app.py *)

(** X16: [authenticate_user] returns [True] exactly when the session was
    already authenticated on entry.  The session is authenticated
    afterwards exactly when it was before or when the Login button was
    clicked with a user name and a password that both read admin once
    stripped; in the latter case the run ends in [st.rerun()].  The flag
    is always present afterwards and is never taken back. *)
Theorem authenticate_user_gate
  (authenticated : option bool) (username password : string)
  (login_clicked : bool) :
  let '(outcome, authenticated', shown) :=
    AppPage.authenticate_user authenticated username password login_clicked in
  let accepted :=
    login_clicked = true /\ strip username = "admin"
    /\ strip password = "admin" in
  (outcome = AppPage.Returns true <-> authenticated = Some true)
  /\ (outcome = AppPage.Reruns <-> authenticated <> Some true /\ accepted)
  /\ (authenticated' = Some true <-> authenticated = Some true \/ accepted)
  /\ authenticated' <> None.
Proof.
  unfold AppPage.authenticate_user.
  destruct authenticated as [[|]|], login_clicked;
    destruct (decide (strip username = "admin")) as [Hu|Hu];
    destruct (decide (strip password = "admin")) as [Hp|Hp];
    cbn [negb]; cbv zeta; intuition congruence.
Qed.

Lemma authenticate_user_gate_witness :
  fst (fst (AppPage.authenticate_user None "admin" "admin" true))
  = AppPage.Reruns.
Proof.
  pose proof (authenticate_user_gate None "admin" "admin" true) as H.
  destruct (AppPage.authenticate_user None "admin" "admin" true)
    as [[outcome authenticated'] shown].
  cbn [fst]. destruct H as (_ & H & _). apply H.
  split; [discriminate|]. repeat split; reflexivity.
Defined.

Lemma rstrip_blank (b : string) : all_space b = true -> rstrip b = "".
Proof.
  intros H. pose proof (truthy_rstrip b) as Ht. rewrite H in Ht.
  now destruct (rstrip b).
Qed.

Lemma rstrip_app_blank (s b : string) :
  all_space b = true -> rstrip (s +:+ b) = rstrip s.
Proof.
  intros H. induction s as [|c s IH]; [now apply rstrip_blank|].
  rewrite append_cons. cbn [rstrip]. now rewrite IH.
Qed.

Lemma lstrip_blank_app (a s : string) :
  all_space a = true -> lstrip (a +:+ s) = lstrip s.
Proof.
  induction a as [|c a IH]; intros H; [reflexivity|].
  cbn [all_space] in H. apply andb_prop in H as [Hc Ha].
  rewrite append_cons. cbn [lstrip]. rewrite Hc. now apply IH.
Qed.

(** White space around [admin] is stripped away. *)
Lemma strip_padded_admin (a b : string) :
  all_space a = true -> all_space b = true ->
  strip (a +:+ "admin" +:+ b) = "admin".
Proof.
  intros Ha Hb. unfold strip. rewrite (lstrip_blank_app a _ Ha).
  change (lstrip ("admin" +:+ b)) with ("admin" +:+ b).
  now rewrite (rstrip_app_blank "admin" b Hb).
Qed.

(** X17: the log-in compares stripped input: a click on Login with admin
    as user name and as password, each surrounded by any white space,
    authenticates a session that was not authenticated, shows no error
    and reruns the script. *)
Theorem authenticate_user_ignores_padding
  (authenticated : option bool) (a b c d : string) :
  authenticated <> Some true ->
  all_space a = true -> all_space b = true ->
  all_space c = true -> all_space d = true ->
  AppPage.authenticate_user authenticated
    (a +:+ "admin" +:+ b) (c +:+ "admin" +:+ d) true
  = (AppPage.Reruns, Some true, [AppPage.Title "Log in to Application"]).
Proof.
  intros Hauth Ha Hb Hc Hd. unfold AppPage.authenticate_user.
  rewrite (strip_padded_admin a b Ha Hb), (strip_padded_admin c d Hc Hd).
  rewrite !decide_True by reflexivity.
  destruct authenticated as [[|]|]; [now contradiction Hauth| |]; reflexivity.
Qed.

Lemma authenticate_user_ignores_padding_witness :
  AppPage.authenticate_user (Some false) "  admin " ("admin" +:+ nl) true
  = (AppPage.Reruns, Some true, [AppPage.Title "Log in to Application"]).
Proof.
  apply (authenticate_user_ignores_padding (Some false) "  " " " "" nl).
  - discriminate.
  - reflexivity.
  - reflexivity.
  - reflexivity.
  - reflexivity.
Defined.

(** ** A click on Generate MoM in src/app.py *)

Lemma requests_app (a b : list AppPage.ui) :
  AppPage.requests (a ++ b) = AppPage.requests a ++ AppPage.requests b.
Proof.
  induction a as [|x a IH]; [reflexivity|].
  destruct x; cbn [app AppPage.requests]; now rewrite IH.
Qed.

Lemma translate_text_requests (text language : string)
  (client : MoMGenerator.service) (made : nat) :
  AppPage.requests (snd (AppPage.translate_text text language client made))
  = [AppPage.translate_request text language].
Proof.
  unfold AppPage.translate_text.
  destruct (client made (AppPage.translate_request text language)); reflexivity.
Qed.

Lemma generate_mom_requests (prompt : string) (client : MoMGenerator.service)
  (made : nat) :
  AppPage.requests (snd (AppPage.generate_mom prompt client made))
  = [AppPage.mom_request prompt].
Proof.
  unfold AppPage.generate_mom.
  destruct (client made (AppPage.mom_request prompt)); reflexivity.
Qed.

Lemma transcribe_audio_requests (dg : result (list (gmap string value))) :
  AppPage.requests (snd (AppPage.transcribe_audio dg)) = [].
Proof. destruct dg; reflexivity. Qed.

(** The requests one click sends. *)
Lemma generate_clicked_requests (dg : result (list (gmap string value)))
  (client : MoMGenerator.service) (current_date language : string) :
  AppPage.requests (AppPage.generate_clicked dg client current_date language)
  = match App.create_transcript (fst (AppPage.transcribe_audio dg)) with
    | Raise _ => []
    | Ok transcript =>
        if decide (lower language = "english") then
          [AppPage.mom_request
             (AppPage.create_prompt current_date transcript language)]
        else
          [AppPage.translate_request transcript language;
           AppPage.mom_request
             (AppPage.create_prompt current_date
                (fst (AppPage.translate_text transcript language client 0))
                language)]
    end.
Proof.
  unfold AppPage.generate_clicked.
  pose proof (transcribe_audio_requests dg) as Hdg.
  destruct (AppPage.transcribe_audio dg) as [response shown1].
  cbn [fst snd] in *.
  destruct (App.create_transcript response) as [transcript0|e].
  - destruct (decide (lower language = "english")) as [Heng|Hother].
    + pose proof (generate_mom_requests
                    (AppPage.create_prompt current_date transcript0 language)
                    client 0) as Hmom.
      destruct (AppPage.generate_mom _ client 0) as [mom shown3].
      cbn [snd] in Hmom.
      rewrite !requests_app, Hdg, Hmom.
      destruct (truthy transcript0), mom as [m|]; try destruct (truthy m);
        reflexivity.
    + pose proof (translate_text_requests transcript0 language client 0) as Htr.
      destruct (AppPage.translate_text transcript0 language client 0)
        as [translated shown2].
      cbn [fst snd] in *.
      pose proof (generate_mom_requests
                    (AppPage.create_prompt current_date translated language)
                    client 1) as Hmom.
      destruct (AppPage.generate_mom _ client 1) as [mom shown3].
      cbn [snd] in Hmom.
      rewrite !requests_app, Hdg, Htr, Hmom.
      destruct (truthy translated), mom as [m|]; try destruct (truthy m);
        reflexivity.
  - rewrite !requests_app, Hdg. reflexivity.
Qed.

(** X18: one click on Generate MoM sends no chat request at all when the
    transcript cannot be built from the response, exactly one request when
    the language reads english in lower case, and exactly two, the
    translation then the minutes, for any other language, whether or not
    the calls succeed. *)
Theorem generate_clicked_request_count
  (dg : result (list (gmap string value))) (client : MoMGenerator.service)
  (current_date language : string) :
  length (AppPage.requests
            (AppPage.generate_clicked dg client current_date language))
  = match App.create_transcript (fst (AppPage.transcribe_audio dg)) with
    | Raise _ => 0%nat
    | Ok _ => if decide (lower language = "english") then 1%nat else 2%nat
    end.
Proof.
  rewrite generate_clicked_requests.
  destruct (App.create_transcript (fst (AppPage.transcribe_audio dg)));
    [destruct (decide (lower language = "english"))|]; reflexivity.
Qed.





(** ** File names *)

Section SanitizeFacts.
Variable isalnum : N -> bool.

Lemma sanitize_sublist (f : list N) :
  sublist (FileNames.sanitize_filename isalnum f) f.
Proof.
  unfold FileNames.sanitize_filename.
  induction f as [|c f IH]; [constructor|].
  cbn [List.filter]. destruct (FileNames.keeps isalnum c);
    [now apply sublist_skip | now apply sublist_cons].
Qed.

Lemma sanitize_kept_fixed (f : list N) :
  Forall (fun c => FileNames.keeps isalnum c = true) f ->
  FileNames.sanitize_filename isalnum f = f.
Proof.
  unfold FileNames.sanitize_filename.
  induction 1 as [|c f Hc _ IH]; [reflexivity|].
  cbn [List.filter]. now rewrite Hc, IH.
Qed.

Lemma sanitize_all_kept (f : list N) :
  Forall (fun c => FileNames.keeps isalnum c = true)
    (FileNames.sanitize_filename isalnum f).
Proof.
  apply List.Forall_forall. intros c Hc.
  unfold FileNames.sanitize_filename in Hc.
  now apply List.filter_In in Hc.
Qed.

End SanitizeFacts.

(** X21: whatever characters [str.isalnum] holds of, [sanitize_filename]
    returns, in their order, exactly the characters of the name that are
    alphanumeric for Python or one of dot, underscore, hyphen and blank.
    As [str.isalnum] has on the ASCII range the value it has for letters
    and digits only, a slash or a backslash never occurs in the result.
    A name made of kept characters is returned unchanged; sanitizing
    twice is sanitizing once; the result is never longer than the name;
    and the sanitized concatenation of two names is the concatenation of
    their sanitized forms. *)
Theorem sanitize_filename_keeps_safe_characters
  (isalnum : N -> bool) (f g : list N) :
  (forall c, In c (FileNames.sanitize_filename isalnum f)
             <-> In c f /\ (isalnum c = true \/ In c FileNames.kept_marks))
  /\ sublist (FileNames.sanitize_filename isalnum f) f
  /\ (FileNames.ascii_exact isalnum ->
      ~ In 47%N (FileNames.sanitize_filename isalnum f)
      /\ ~ In 92%N (FileNames.sanitize_filename isalnum f))
  /\ (Forall (fun c => FileNames.keeps isalnum c = true) f ->
      FileNames.sanitize_filename isalnum f = f)
  /\ FileNames.sanitize_filename isalnum
       (FileNames.sanitize_filename isalnum f)
     = FileNames.sanitize_filename isalnum f
  /\ (length (FileNames.sanitize_filename isalnum f) <= length f)%nat
  /\ FileNames.sanitize_filename isalnum (f ++ g)
     = FileNames.sanitize_filename isalnum f
         ++ FileNames.sanitize_filename isalnum g.
Proof.
  assert (Hkeeps : forall c,
             FileNames.keeps isalnum c = true
             <-> isalnum c = true \/ In c FileNames.kept_marks).
  { intros c. unfold FileNames.keeps.
    rewrite orb_true_iff, existsb_exists. split.
    - intros [H|(x & Hx & Heq)]; [now left|].
      right. apply N.eqb_eq in Heq. now subst x.
    - intros [H|H]; [now left|]. right. exists c. split; [exact H|].
      apply N.eqb_refl. }
  assert (Hin : forall c, In c (FileNames.sanitize_filename isalnum f)
                          <-> In c f /\ FileNames.keeps isalnum c = true).
  { intros c. unfold FileNames.sanitize_filename. apply List.filter_In. }
  split; [intros c; rewrite Hin, Hkeeps; reflexivity|].
  split; [apply sanitize_sublist|].
  split.
  { intros Hascii. split; intros H; apply Hin in H as [_ H];
      unfold FileNames.keeps in H; rewrite Hascii in H by reflexivity;
      vm_compute in H; discriminate. }
  split; [apply sanitize_kept_fixed|].
  split; [apply sanitize_kept_fixed, sanitize_all_kept|].
  split.
  - unfold FileNames.sanitize_filename. apply List.filter_length_le.
  - unfold FileNames.sanitize_filename. apply List.filter_app.
Qed.

Lemma sanitize_filename_keeps_safe_characters_witness :
  FileNames.ascii_exact FileNames.sample_isalnum
  /\ ~ In 47%N
       (FileNames.sanitize_filename FileNames.sample_isalnum
          (233%N :: FileNames.code_points "/tmp/minutes 1.txt"))
  /\ FileNames.sanitize_filename FileNames.sample_isalnum
       (233%N :: FileNames.code_points "minutes_1.txt")
     = 233%N :: FileNames.code_points "minutes_1.txt".
Proof.
  assert (Hexact : FileNames.ascii_exact FileNames.sample_isalnum).
  { intros c Hc. unfold FileNames.sample_isalnum.
    replace (c =? 233)%N with false by (symmetry; apply N.eqb_neq; lia).
    apply orb_false_r. }
  split; [exact Hexact|].
  destruct (sanitize_filename_keeps_safe_characters FileNames.sample_isalnum
              (233%N :: FileNames.code_points "/tmp/minutes 1.txt") [])
    as (_ & _ & Hslash & _).
  destruct (sanitize_filename_keeps_safe_characters FileNames.sample_isalnum
              (233%N :: FileNames.code_points "minutes_1.txt") [])
    as (_ & _ & _ & Hfixed & _).
  split.
  - apply Hslash. exact Hexact.
  - apply Hfixed. vm_compute. repeat constructor.
Defined.

(** ** The audio recorder *)

Section RecorderFacts.
Context {frame : Type}.
Variable encode : frame -> result string.

Lemma frames_sent_app (a b : list AudioRecorder.audio_effect) :
  AudioRecorder.frames_sent (a ++ b)
  = AudioRecorder.frames_sent a ++ AudioRecorder.frames_sent b.
Proof.
  induction a as [|x a IH]; [reflexivity|].
  destruct x; cbn [app AudioRecorder.frames_sent]; now rewrite IH.
Qed.

Lemma handle_frames_spec (audio_frames : list frame) :
  forall self : AudioRecorder.recorder,
    let run := AudioRecorder.handle_frames encode self audio_frames in
    AudioRecorder.audio_queue (fst run)
    = AudioRecorder.audio_queue self ++ AudioRecorder.encoded encode audio_frames
    /\ AudioRecorder.frames_sent (snd run)
       = match AudioRecorder.send_function self with
         | Some _ => AudioRecorder.encoded encode audio_frames
         | None => []
         end
    /\ AudioRecorder.recording (fst run) = AudioRecorder.recording self
    /\ AudioRecorder.send_function (fst run) = AudioRecorder.send_function self.
Proof.
  induction audio_frames as [|fr frames IH]; intros self; cbv zeta.
  - cbn [AudioRecorder.handle_frames AudioRecorder.encoded fst snd
         AudioRecorder.frames_sent].
    rewrite app_nil_r. repeat split.
    now destruct (AudioRecorder.send_function self).
  - cbn [AudioRecorder.handle_frames AudioRecorder.encoded].
    destruct (AudioRecorder._handle_audio_frame encode self fr)
      as [self1 effs1] eqn:Hone.
    specialize (IH self1). cbv zeta in IH.
    destruct (AudioRecorder.handle_frames encode self1 frames)
      as [self2 effs2].
    cbn [fst snd] in *. destruct IH as (Hq & Hs & Hr & Hf).
    rewrite frames_sent_app, Hq, Hs, Hr, Hf.
    unfold AudioRecorder._handle_audio_frame in Hone.
    destruct (encode fr) as [audio_bytes|e].
    + destruct (AudioRecorder.send_function self) as [send|] eqn:Hsend.
      * destruct (send audio_bytes) as [u|e];
          injection Hone as <- <-;
          cbn [AudioRecorder.audio_queue AudioRecorder.recording
               AudioRecorder.send_function AudioRecorder.frames_sent app];
          rewrite <- app_assoc; repeat split.
      * injection Hone as <- <-.
        cbn [AudioRecorder.audio_queue AudioRecorder.recording
             AudioRecorder.send_function AudioRecorder.frames_sent app].
        rewrite <- app_assoc. repeat split.
    + injection Hone as <- <-.
      cbn [AudioRecorder.frames_sent app]. repeat split.
Qed.

End RecorderFacts.

(** X22: frames handled one after the other are queued in arrival order:
    the queue grows by the bytes of exactly the frames that convert,
    whether or not sending them succeeds; the same bytes are handed to the
    send function, in the same order, when one is set, and nothing is sent
    when none is set, as after [stop]; the recording flag and the send
    function are left as they were. *)
Theorem handled_frames_are_queued_and_sent
  (frame : Type) (encode : frame -> result string)
  (self : AudioRecorder.recorder) (audio_frames : list frame) :
  let run := AudioRecorder.handle_frames encode self audio_frames in
  AudioRecorder.audio_queue (fst run)
  = AudioRecorder.audio_queue self ++ AudioRecorder.encoded encode audio_frames
  /\ AudioRecorder.frames_sent (snd run)
     = match AudioRecorder.send_function self with
       | Some _ => AudioRecorder.encoded encode audio_frames
       | None => []
       end
  /\ AudioRecorder.recording (fst run) = AudioRecorder.recording self
  /\ AudioRecorder.send_function (fst run) = AudioRecorder.send_function self
  /\ AudioRecorder.frames_sent
       (snd (AudioRecorder.handle_frames encode (AudioRecorder.stop self)
               audio_frames)) = [].
Proof.
  cbv zeta.
  destruct (handle_frames_spec encode audio_frames self) as (Hq & Hs & Hr & Hf).
  destruct (handle_frames_spec encode audio_frames (AudioRecorder.stop self))
    as (_ & Hstop & _).
  repeat split; assumption.
Qed.

Lemma take_audio_queue (queue : list string) :
  forall (rec_flag : bool) (send : option (string -> result unit)),
    AudioRecorder.take_audio (S (length queue))
      {| AudioRecorder.audio_queue := queue;
         AudioRecorder.recording := rec_flag;
         AudioRecorder.send_function := send |}
    = (map Some queue ++ [None],
       {| AudioRecorder.audio_queue := [];
          AudioRecorder.recording := rec_flag;
          AudioRecorder.send_function := send |}).
Proof.
  induction queue as [|b queue IH]; intros rec_flag send; [reflexivity|].
  cbn [length]. 
  change (AudioRecorder.take_audio (S (S (length queue))) ?s)
    with (let '(got, self1) := AudioRecorder.get_audio_data s in
          let '(more, self2) :=
            AudioRecorder.take_audio (S (length queue)) self1 in
          (got :: more, self2)).
  cbn [AudioRecorder.get_audio_data AudioRecorder.audio_queue
       AudioRecorder.recording AudioRecorder.send_function].
  now rewrite IH.
Qed.

(** X23: [get_audio_data] hands the queued chunks out oldest first, one per
    call, and returns [None] once the queue is empty, leaving the rest of
    the recorder untouched; after [clear_queue] the first call already
    returns [None]. *)
Theorem audio_queue_first_in_first_out (self : AudioRecorder.recorder) :
  AudioRecorder.take_audio (S (length (AudioRecorder.audio_queue self))) self
  = (map Some (AudioRecorder.audio_queue self) ++ [None],
     {| AudioRecorder.audio_queue := [];
        AudioRecorder.recording := AudioRecorder.recording self;
        AudioRecorder.send_function := AudioRecorder.send_function self |})
  /\ AudioRecorder.get_audio_data (AudioRecorder.clear_queue self)
     = (None, AudioRecorder.clear_queue self)
  /\ AudioRecorder.audio_queue (AudioRecorder.clear_queue self) = [].
Proof.
  assert (Hdrain : forall q, AudioRecorder.drain q = [])
    by (induction q; [reflexivity | assumption]).
  destruct self as [queue rec_flag send].
  cbn [AudioRecorder.audio_queue AudioRecorder.recording
       AudioRecorder.send_function].
  split; [apply take_audio_queue|].
  unfold AudioRecorder.clear_queue, AudioRecorder.get_audio_data.
  cbn [AudioRecorder.audio_queue]. rewrite Hdrain. split; reflexivity.
Qed.

(** ** One transcriber, several sessions *)

(** X24: neither [stop] nor [process_audio] clears the collector.  When a
    session that finalized nothing is stopped and a new session is started
    on the same transcriber, the fragments of the stopped session are still
    there, and the first utterance the new session emits starts with
    them. *)
Theorem fragments_survive_into_next_session
  (self : DeepgramLive.DeepgramLiveTranscriber) (cb : string -> result unit)
  (events : list DeepgramLive.stream_event) (fin : LiveResult)
  (rest : list DeepgramLive.stream_event) :
  Forall (fun ev => LiveStream.closes_event ev = false) events ->
  LiveStream.closes fin = true ->
  let left_over :=
    DeepgramLive.transcript_parts (DeepgramLive.transcript_collector self)
      ++ LiveStream.kept (LiveStream.results_of events) in
  cb (join " " (left_over ++ [transcript fin])) = Ok tt ->
  let first := DeepgramLive.process_audio self cb events in
  let stopped := fst (DeepgramLive.stop (DeepgramLive.transcriber first)) in
  let second :=
    DeepgramLive.process_audio stopped cb (DeepgramLive.Transcript fin :: rest) in
  DeepgramLive.transcription_complete stopped = Some true
  /\ DeepgramLive.transcript_parts (DeepgramLive.transcript_collector stopped)
     = left_over
  /\ callback_calls (DeepgramLive.effects second)
     = [join " " (left_over ++ [transcript fin])]
  /\ DeepgramLive.finished second = true.
Proof.
  intros Hq Hfin left_over Hok first stopped second.
  destruct (closes_true fin Hfin) as (Hsent & Hsf & _).
  assert (Hstopped :
            stopped
            = {| DeepgramLive.transcript_collector :=
                   {| DeepgramLive.transcript_parts := left_over |};
                 DeepgramLive.callback := Some cb;
                 DeepgramLive.transcription_complete := Some true |}).
  { subst stopped first. unfold DeepgramLive.process_audio.
    destruct (wait_complete_quiet events
                {| DeepgramLive.transcript_collector :=
                     DeepgramLive.transcript_collector self;
                   DeepgramLive.callback := Some cb;
                   DeepgramLive.transcription_complete := Some false |}
                [] [] eq_refl Hq) as (shown & _ & Hw).
    rewrite app_nil_r in Hw. rewrite Hw. reflexivity. }
  rewrite Hstopped. split; [reflexivity|]. split; [reflexivity|].
  subst second. rewrite Hstopped. unfold DeepgramLive.process_audio.
  cbn [DeepgramLive.wait_complete DeepgramLive.transcription_complete
       DeepgramLive.dispatch DeepgramLive.transcript_collector].
  match goal with
  | |- context [DeepgramLive.on_message ?s fin] =>
      pose proof (on_message_speech_final s fin cb eq_refl Hsent Hsf) as Hfinal
  end.
  cbv zeta in Hfinal. rewrite Hfinal. clear Hfinal.
  cbn [DeepgramLive.set_collector DeepgramLive.transcript_collector
       DeepgramLive.transcript_parts].
  rewrite Hok.
  cbn [DeepgramLive.set_complete DeepgramLive.set_collector
       DeepgramLive.transcription_complete DeepgramLive.callback
       DeepgramLive.transcript_collector].
  rewrite wait_complete_set by reflexivity.
  cbn [DeepgramLive.finished DeepgramLive.effects]. split; reflexivity.
Qed.

Lemma fragments_survive_into_next_session_witness :
  callback_calls
    (DeepgramLive.effects
       (DeepgramLive.process_audio
          (fst (DeepgramLive.stop
                  (DeepgramLive.transcriber
                     (DeepgramLive.process_audio DeepgramLive.init
                        Samples.quiet_callback
                        [DeepgramLive.Transcript (Fixtures.settled "Old")]))))
          Samples.quiet_callback
          [DeepgramLive.Transcript (Fixtures.closing "new")]))
  = ["Old new"].
Proof.
  destruct (fragments_survive_into_next_session DeepgramLive.init
              Samples.quiet_callback
              [DeepgramLive.Transcript (Fixtures.settled "Old")]
              (Fixtures.closing "new") []) as (_ & _ & H & _).
  - repeat constructor.
  - reflexivity.
  - reflexivity.
  - exact H.
Defined.
